(** * pymanoid: stances and their balance regions

    A shallow embedding of [pymanoid/stance.py] (class [Stance]) and the
    properties of its balance-region queries.

    Modelling conventions.
    - numpy's float arrays are idealised: a scalar is a real number of
      [Stdlib.Reals], a 1-D array is a [list R], a 2-D array is the list of
      its rows.  Rounding is not modelled.
    - A method of [Stance] is a computation in the monad [M]: it reads and
      writes the attributes of [self] and either returns a value or raises.
      Attribute writes made before an exception is raised persist, as in
      Python.
    - Code of the package that lives outside [stance.py] (the parent class
      [ContactSet], [Contact], [PointMass], the [pypoman] projections, the
      [gravity] constant) enters as variables of the section [StanceModel],
      or as a definition marked [Modelled from the spec]. *)

From Stdlib Require Import Reals Lra List String.
From stdpp Require Import base option gmap strings.
Import ListNotations.

Local Open Scope R_scope.
Local Open Scope string_scope.
Local Open Scope list_scope.

(** ** Exceptions *)

(** The failure conditions named by the specification (its section 7). *)
Inductive condition :=
| DegenerateGeometry
| InsufficientContacts
| ProjectionFailed
| StaleState
| Infeasible.

(** What a call can raise: the Python exceptions that [stance.py] and numpy
    raise, and [Raised c] for a collaborator that is modelled from the
    specification and signals the condition [c]. *)
Inductive exn :=
| TypeError
| ValueError
| KeyError (key : string)
| AttributeError (attr : string)
| IOError
| QhullError
| PyException (msg : string)
| Raised (c : condition).

Definition result (A : Type) : Type := exn + A.

(** The condition of the specification's taxonomy that an exception stands
    for.  The one [raise] statement of [stance.py] reports that the 2D polar
    hull could not be computed; the exceptions that the Python runtime and
    numpy raise on their own stand for no condition. *)
Definition condition_of (e : exn) : option condition :=
  match e with
  | Raised c => Some c
  | PyException msg =>
      if String.eqb msg "Cannot compute 2D polar for acceleration cone"
      then Some ProjectionFailed
      else None
  | _ => None
  end.

(** ** numpy arrays *)

Module Np.

Definition vec2 : Type := R * R.
Definition vec3 : Type := R * R * R.

Definition dot2 (a x : vec2) : R := fst a * fst x + snd a * snd x.

Definition dot3 (a x : vec3) : R :=
  let '(a1, a2, a3) := a in
  let '(x1, x2, x3) := x in
  a1 * x1 + a2 * x2 + a3 * x3.

Definition add3 (a x : vec3) : vec3 :=
  let '(a1, a2, a3) := a in
  let '(x1, x2, x3) := x in
  (a1 + x1, a2 + x2, a3 + x3).

(** [numpy.cross] of two 3-vectors *)
Definition cross (a v : vec3) : vec3 :=
  let '(a1, a2, a3) := a in
  let '(v1, v2, v3) := v in
  (a2 * v3 - a3 * v2, a3 * v1 - a1 * v3, a1 * v2 - a2 * v1).

(** [v[:2]] and [v[2]] of an array of shape (3,) *)
Definition xy (v : vec3) : vec2 := let '(x, y, _) := v in (x, y).
Definition idx2 (v : vec3) : R := let '(_, _, z) := v in z.

(** An elementwise binary operation on two 1-D arrays, with numpy's
    broadcasting: the shapes must agree unless one of them is (1,). *)
Definition broadcast (f : R -> R -> R) (u v : list R) : result (list R) :=
  if Nat.eqb (length u) (length v)
  then inr (map (fun '(x, y) => f x y) (combine u v))
  else match u, v with
       | [x], _ => inr (map (f x) v)
       | _, [y] => inr (map (fun x => f x y) u)
       | _, _ => inl ValueError
       end.

(** [dot(A, x)] for [A] of shape (k, 2) and [x] of shape (2,) *)
Definition dot_rows2 (A : list vec2) (x : vec2) : list R :=
  map (fun a => dot2 a x) A.

(** The least element of a non-empty list of reals. *)
Fixpoint minimum (x : R) (l : list R) : R :=
  match l with
  | [] => x
  | y :: l' => Rmin x (minimum y l')
  end.

(** Python's builtin [min] over a 1-D array: [ValueError] when it is empty. *)
Definition py_min (l : list R) : result R :=
  match l with
  | [] => inl ValueError
  | x :: l' => inr (minimum x l')
  end.

End Np.
Import Np.

(** Modelled from the spec: [pymanoid.misc.norm] is defined outside
    [stance.py]; the specification calls it the Euclidean norm of a row of
    [A]. *)
Definition norm (a : vec2) : R := sqrt (dot2 a a).

(** ** Bodies *)

(** Modelled from the spec: [PointMass] (body.py) is defined outside
    [stance.py].  The specification's centre-of-mass target is a 3D position
    plus a scalar mass; [stance.py] reads them as [com.p] and [com.mass]. *)
Record PointMass := mkPointMass {
  p : vec3;
  mass : R
}.

(** [com.x], [com.y], [com.z] *)
Definition x (pm : PointMass) : R := fst (fst (p pm)).
Definition y (pm : PointMass) : R := snd (fst (p pm)).
Definition z (pm : PointMass) : R := snd (p pm).

(** Modelled from the spec: [Contact] (contact.py) is defined outside
    [stance.py].  The specification's contact is a shape (a 2D polygon), a
    friction coefficient and a pose; [Stance.load] builds it from the keys
    [shape], [friction], [pos] and [rpy]. *)
Record Contact := mkContact {
  shape : list vec2;
  friction : R;
  pos : vec3;
  rpy : vec3
}.

(** A 2-D array, as the list of its rows. *)
Definition matrix : Type := list (list R).

(** ** The stance object *)

(** The attributes of a [Stance].  [sep_hrep] is [None] for Python's [None]
    (what [__init__] stores); [sep_norm] and [sep_vertices] are [None] as
    long as the attribute does not exist ([__init__] does not create them). *)
Record Stance := mkStance {
  com : PointMass;
  dof_tasks : list (nat * R);
  left_foot : option Contact;
  left_hand : option Contact;
  right_foot : option Contact;
  right_hand : option Contact;
  sep_hrep : option (list vec2 * list R);
  sep_norm : option (list R);
  sep_vertices : option (list vec2)
}.

(** [Stance.__init__]; the constructor's assertion that [com] is a
    [PointMass] is the type of its first argument. *)
Definition Stance_init (com : PointMass)
    (left_foot right_foot left_hand right_hand : option Contact) : Stance :=
  {| com := com;
     dof_tasks := [];
     left_foot := left_foot;
     left_hand := left_hand;
     right_foot := right_foot;
     right_hand := right_hand;
     sep_hrep := None;
     sep_norm := None;
     sep_vertices := None |}.

(** ** Methods as computations over [self] *)

Definition M (A : Type) : Type := Stance -> Stance * result A.

Definition ret {A} (a : A) : M A := fun s => (s, inr a).

Definition raise {A} (e : exn) : M A := fun s => (s, inl e).

Definition bind {A B} (m : M A) (k : A -> M B) : M B :=
  fun s =>
    match m s with
    | (s', inl e) => (s', inl e)
    | (s', inr a) => k a s'
    end.

(** The outcome of a call that does not touch [self]. *)
Definition lift {A} (r : result A) : M A := fun s => (s, r).

(** Reading an attribute of [self]. *)
Definition attr {A} (f : Stance -> A) : M A := fun s => (s, inr (f s)).

(** Reading an attribute that may not exist yet. *)
Definition attr_opt {A} (name : string) (f : Stance -> option A) : M A :=
  fun s =>
    match f s with
    | Some a => (s, inr a)
    | None => (s, inl (AttributeError name))
    end.

(** [try: m  except QhullError: h] *)
Definition except_QhullError {A} (m : M A) (h : M A) : M A :=
  fun s =>
    match m s with
    | (s', inl QhullError) => h s'
    | r => r
    end.

(** [M] with stdpp's monad notations: [x ← m; k] runs [m], then [k]. *)
#[global] Instance M_ret : MRet M := @ret.
#[global] Instance M_bind : MBind M := fun A B k m => bind m k.

(** Attribute assignments *)
Definition set_com (v : PointMass) : M unit := fun s =>
  (mkStance v (dof_tasks s) (left_foot s) (left_hand s) (right_foot s)
     (right_hand s) (sep_hrep s) (sep_norm s) (sep_vertices s), inr tt).
Definition set_left_foot (v : option Contact) : M unit := fun s =>
  (mkStance (com s) (dof_tasks s) v (left_hand s) (right_foot s)
     (right_hand s) (sep_hrep s) (sep_norm s) (sep_vertices s), inr tt).
Definition set_left_hand (v : option Contact) : M unit := fun s =>
  (mkStance (com s) (dof_tasks s) (left_foot s) v (right_foot s)
     (right_hand s) (sep_hrep s) (sep_norm s) (sep_vertices s), inr tt).
Definition set_right_foot (v : option Contact) : M unit := fun s =>
  (mkStance (com s) (dof_tasks s) (left_foot s) (left_hand s) v
     (right_hand s) (sep_hrep s) (sep_norm s) (sep_vertices s), inr tt).
Definition set_right_hand (v : option Contact) : M unit := fun s =>
  (mkStance (com s) (dof_tasks s) (left_foot s) (left_hand s) (right_foot s)
     v (sep_hrep s) (sep_norm s) (sep_vertices s), inr tt).
Definition set_sep_hrep (v : list vec2 * list R) : M unit := fun s =>
  (mkStance (com s) (dof_tasks s) (left_foot s) (left_hand s) (right_foot s)
     (right_hand s) (Some v) (sep_norm s) (sep_vertices s), inr tt).
Definition set_sep_norm (v : list R) : M unit := fun s =>
  (mkStance (com s) (dof_tasks s) (left_foot s) (left_hand s) (right_foot s)
     (right_hand s) (sep_hrep s) (Some v) (sep_vertices s), inr tt).
Definition set_sep_vertices (v : list vec2) : M unit := fun s =>
  (mkStance (com s) (dof_tasks s) (left_foot s) (left_hand s) (right_foot s)
     (right_hand s) (sep_hrep s) (sep_norm s) (Some v), inr tt).

(** The property [Stance.contacts]: [filter(None, [left_foot, left_hand,
    right_foot, right_hand])]. *)
Definition contacts (s : Stance) : list Contact :=
  omap (λ o : option Contact, o)
    [left_foot s; left_hand s; right_foot s; right_hand s].

(** The property [Stance.nb_contacts]. *)
Definition nb_contacts (s : Stance) : nat :=
  let nb_contacts := 0%nat in
  let nb_contacts :=
    if left_foot s is Some _ then S nb_contacts else nb_contacts in
  let nb_contacts :=
    if left_hand s is Some _ then S nb_contacts else nb_contacts in
  let nb_contacts :=
    if right_foot s is Some _ then S nb_contacts else nb_contacts in
  let nb_contacts :=
    if right_hand s is Some _ then S nb_contacts else nb_contacts in
  nb_contacts.

(** ** Dense linear algebra on lists *)

Module Mat.

Definition zeros (n : nat) : list R := repeat 0 n.

(** The number of columns of a 2-D array with at least one row. *)
Definition width (m : matrix) : nat :=
  match m with
  | [] => 0%nat
  | r :: _ => length r
  end.

(** [dot(r, x)] of two 1-D arrays *)
Fixpoint dot (r x : list R) : R :=
  match r, x with
  | a :: r', b :: x' => a * b + dot r' x'
  | _, _ => 0
  end.

(** [dot(m, x)] of a 2-D and a 1-D array *)
Definition matvec (m : matrix) (x : list R) : list R :=
  map (fun r => dot r x) m.

Definition vscale (k : R) (v : list R) : list R := map (Rmult k) v.

Fixpoint vadd (u v : list R) : list R :=
  match u, v with
  | a :: u', b :: v' => (a + b) :: vadd u' v'
  | _, _ => []
  end.

(** [k * m] *)
Definition scale (k : R) (m : matrix) : matrix := map (vscale k) m.

(** [eye(n)] *)
Definition eye (n : nat) : matrix :=
  map (fun i => map (fun j => if Nat.eqb i j then 1 else 0) (seq 0 n)) (seq 0 n).

(** The linear combination of the rows of [g] with coefficients [r]. *)
Fixpoint lincomb (n : nat) (r : list R) (g : matrix) : list R :=
  match r, g with
  | a :: r', row :: g' => vadd (vscale a row) (lincomb n r' g')
  | _, _ => zeros n
  end.

(** [dot(b, g)] of two 2-D arrays: [ValueError] unless every row of [b]
    has as many entries as [g] has rows. *)
Definition matmul (b g : matrix) : result matrix :=
  if forallb (fun r => Nat.eqb (length r) (length g)) b
  then inr (map (fun r => lincomb (width g) r g) b)
  else inl ValueError.

(** [hstack] of 2-D arrays with the same number of rows *)
Fixpoint hstack2 (a b : matrix) : result matrix :=
  match a, b with
  | [], [] => inr []
  | r :: a', r' :: b' =>
      match hstack2 a' b' with
      | inr m => inr ((r ++ r') :: m)
      | inl e => inl e
      end
  | _, _ => inl ValueError
  end.

(** [scipy.linalg.block_diag] of at least one 2-D array *)
Fixpoint block_diag1 (m : matrix) (ms : list matrix) : matrix :=
  match ms with
  | [] => m
  | m' :: ms' =>
      let rest := block_diag1 m' ms' in
      map (fun r => r ++ zeros (width rest)) m
        ++ map (fun r => zeros (width m) ++ r) rest
  end.

(** [scipy.linalg.block_diag] applied to the arrays of [ms]; without
    arguments it is the array of shape (1, 0). *)
Definition block_diag (ms : list matrix) : matrix :=
  match ms with
  | [] => [[]]
  | m :: ms' => block_diag1 m ms'
  end.

(** [vstack] and [hstack] of a Python list of arrays raise [ValueError] on
    the empty list. *)
Definition vstack {A} (blocks : list (list A)) : result (list A) :=
  match blocks with
  | [] => inl ValueError
  | _ => inr (concat blocks)
  end.

Definition hstack1 (blocks : list (list R)) : result (list R) :=
  match blocks with
  | [] => inl ValueError
  | _ => inr (concat blocks)
  end.

End Mat.

(** ** JSON documents and files *)

#[local] Unset Elimination Schemes.
(** What [simplejson.load] returns; an object is a Python [dict]. *)
Inductive json :=
| JNull
| JBool (b : bool)
| JNum (r : R)
| JStr (s : string)
| JList (l : list json)
| JObj (d : gmap string json).
#[local] Set Elimination Schemes.

(** A file system: the document stored under each path.  The text that
    [simplejson.dump] writes is identified with the document it denotes. *)
Abbreviation files := (gmap string json).

#[global] Instance result_ret : MRet result := fun A a => inr a.
#[global] Instance result_bind : MBind result := fun A B k r =>
  match r with
  | inl e => inl e
  | inr a => k a
  end.

Module Json.

(** [k in d] *)
Definition contains (d : json) (k : string) : result bool :=
  match d with
  | JObj m => inr (if m !! k is Some _ then true else false)
  | JList l =>
      inr (existsb (fun e => if e is JStr s then String.eqb s k else false) l)
  | JStr s => inr (if index 0 k s is Some _ then true else false)
  | _ => inl TypeError
  end.

(** [d[k]] for a string key [k] *)
Definition getitem (d : json) (k : string) : result json :=
  match d with
  | JObj m =>
      match m !! k with
      | Some v => inr v
      | None => inl (KeyError k)
      end
  | _ => inl TypeError
  end.

(** The keyword arguments of a call [f( **d )]: [d] has to be a mapping. *)
Definition kwargs (d : json) : result (gmap string json) :=
  match d with
  | JObj m => inr m
  | _ => inl TypeError
  end.

Definition of_vec2 (v : vec2) : json := JList [JNum (fst v); JNum (snd v)].

Definition of_vec3 (v : vec3) : json :=
  let '(a, b, c) := v in JList [JNum a; JNum b; JNum c].

Definition to_num (j : json) : result R :=
  match j with
  | JNum r => inr r
  | _ => inl TypeError
  end.

Definition to_vec2 (j : json) : result vec2 :=
  match j with
  | JList [JNum a; JNum b] => inr (a, b)
  | _ => inl ValueError
  end.

Definition to_vec3 (j : json) : result vec3 :=
  match j with
  | JList [JNum a; JNum b; JNum c] => inr (a, b, c)
  | _ => inl ValueError
  end.

Fixpoint to_vec2s (l : list json) : result (list vec2) :=
  match l with
  | [] => inr []
  | j :: l' =>
      match to_vec2 j, to_vec2s l' with
      | inr v, inr vs => inr (v :: vs)
      | inl e, _ => inl e
      | _, inl e => inl e
      end
  end.

Definition to_polygon (j : json) : result (list vec2) :=
  match j with
  | JList l => to_vec2s l
  | _ => inl TypeError
  end.

End Json.

(** Modelled from the spec: the property [Contact.dict_repr] (contact.py) is
    defined outside [stance.py].  The persisted record of a contact has the
    fields [shape], [friction], [pos] and [rpy]. *)
Definition dict_repr (c : Contact) : json :=
  JObj (<["shape" := JList (map Json.of_vec2 (shape c))]>
       (<["friction" := JNum (friction c)]>
       (<["pos" := Json.of_vec3 (pos c)]>
       (<["rpy" := Json.of_vec3 (rpy c)]> ∅)))).

(** Modelled from the spec: the constructor [Contact(shape=, friction=, pos=,
    rpy=)] (contact.py) is defined outside [stance.py]; it stores the four
    fields it is given. *)
Definition Contact_new (shape friction pos rpy : json) : result Contact :=
  shape ← Json.to_polygon shape;
  friction ← Json.to_num friction;
  pos ← Json.to_vec3 pos;
  rpy ← Json.to_vec3 rpy;
  mret (mkContact shape friction pos rpy).

(** The local function [cfd] of [Stance.load]. *)
Definition cfd (contact_dict : json) : result Contact :=
  shape ← Json.getitem contact_dict "shape";
  friction ← Json.getitem contact_dict "friction";
  pos ← Json.getitem contact_dict "pos";
  rpy ← Json.getitem contact_dict "rpy";
  Contact_new shape friction pos rpy.

(** [cfd(d[key]) if key in d else None] *)
Definition load_contact (d : json) (key : string) : result (option Contact) :=
  present ← Json.contains d key;
  if (present : bool) then
    contact_dict ← Json.getitem d key;
    c ← cfd contact_dict;
    mret (Some c)
  else mret None.

(** Unfolds the monad in a goal about a method run on a stance. *)
Ltac run_method :=
  unfold mbind, M_bind, bind, mret, M_ret, ret, attr, attr_opt, lift, raise;
  simpl.

(** ** The class [Stance] *)

(** The result of [compute_pendular_accel_cone]: the 2D reduced hull, or the
    vertices of the 3D cone. *)
Inductive cone :=
| Reduced2D (reduced_hull : list vec2)
| Cone3D (vertices : list vec3).

(** A projection problem as [project_polytope] receives it: the region
    [{E x + f : F x <= h, C x = d}]. *)
Record projection_problem := mkProblem {
  proj : matrix * list R;
  ineq : matrix * list R;
  eq : matrix * list R
}.

(** ** A worked example

    A stance standing on one flat foot, with stand-ins for the collaborators
    of [stance.py]: the equilibrium polygon is the square of half-side 1
    around the origin. *)

Definition example_gravity : vec3 := (0, 0, -9.81).

Definition flat_contact : Contact :=
  {| shape := [(0.1, 0.05); (-0.1, 0.05); (-0.1, -0.05); (0.1, -0.05)];
     friction := 0.5;
     pos := (0, 0, 0);
     rpy := (0, 0, 0) |}.

(** [Stance(PointMass([0, 0, 1], 50), left_foot=flat_contact)] *)
Definition standing : Stance :=
  Stance_init (mkPointMass (0, 0, 1) 50) (Some flat_contact) None None None.

(** [Stance(PointMass([0, 0, 1], 50))]: no contact at all. *)
Definition floating : Stance :=
  Stance_init (mkPointMass (0, 0, 1) 50) None None None None.

Definition square_vertices : list vec2 := [(1, 1); (-1, 1); (-1, -1); (1, -1)].

Definition square_hrep : list vec2 * list R :=
  ([(1, 0); (0, 1); (-1, 0); (0, -1)], [1; 1; 1; 1]).

Definition example_sep_projection (cs : list Contact) (method : string)
    : result (list vec2) := inr square_vertices.

Definition example_halfspaces (vs : list vec2)
    : result (list vec2 * list R) := inr square_hrep.

(** A wrench cone with four rows [(force part, moment part)]. *)
Definition example_wrench_cone (cs : list Contact) (q : vec3)
    : result (list (vec3 * vec3)) :=
  inr [((1, 0, -1), (0, 0, 0)); ((0, 1, -1), (0, 0, 0));
       ((-1, 0, -1), (0, 0, 0)); ((0, -1, -1), (0, 0, 0))].

Definition example_hull (B : list vec2) (c : list R) : result (list vec2) :=
  inr square_vertices.

Definition failing_hull (B : list vec2) (c : list R) : result (list vec2) :=
  inl QhullError.

Definition example_grasp_matrix (cs : list Contact) (q : vec3)
    : result matrix := inr (Mat.eye 6).

Definition example_wrench_inequalities (c : Contact) : matrix :=
  [[0; 0; -1; 0; 0; 0]].

(** [standing] after [compute_static_equilibrium_polygon]. *)
Definition standing_with_polygon : Stance :=
  {| com := mkPointMass (0, 0, 1) 50;
     dof_tasks := [];
     left_foot := Some flat_contact;
     left_hand := None;
     right_foot := None;
     right_hand := None;
     sep_hrep := Some square_hrep;
     sep_norm := Some (map norm (fst square_hrep));
     sep_vertices := Some square_vertices |}.

(** A document whose record for the right foot has no field at all, stored
    under one path. *)
Definition broken_document : json :=
  JObj {["right_foot" := JObj ∅]}.

Definition example_files : files := {["stance.json" := broken_document]}.

(** A hull function that fails for a reason other than [QhullError]. *)
Definition crashing_hull (B : list vec2) (c : list R) : result (list vec2) :=
  inl ValueError.

(** A grasp matrix with three rows instead of six. *)
Definition short_grasp_matrix (cs : list Contact) (q : vec3)
    : result matrix := inr (Mat.eye 3).

(** A file system in which only [stance.json] can be opened for writing. *)
Definition example_writable (path : string) : bool :=
  String.eqb path "stance.json".

(** A halfspace conversion that always fails. *)
Definition failing_halfspaces (vs : list vec2)
    : result (list vec2 * list R) := inl ValueError.


Section StanceModel.

(** [pymanoid.sim.gravity] *)
Variable gravity : vec3.

(** The methods that [Stance] inherits from [ContactSet] (contact.py); they
    read the contacts of [self] and, by the specification, have no side
    effect.  [sep_projection] is the parent's equilibrium-polygon projection
    for a non-empty contact set. *)
Variable compute_wrench_inequalities :
  list Contact -> vec3 -> result (list (vec3 * vec3)).
Variable compute_grasp_matrix : list Contact -> vec3 -> result matrix.
Variable find_supporting_wrenches :
  list Contact -> list R -> vec3 -> result (list (Contact * list R)).
Variable sep_projection : list Contact -> string -> result (list vec2).

(** The attribute [Contact.wrench_inequalities]. *)
Variable wrench_inequalities : Contact -> matrix.

(** The functions imported from [pymanoid.pypoman]. *)
Variable compute_polygon_hull : list vec2 -> list R -> result (list vec2).
Variable compute_polytope_halfspaces :
  list vec2 -> result (list vec2 * list R).
Variable project_polytope : projection_problem -> string -> result (list vec2).

(** The mass of a [PointMass] built without one. *)
Variable default_mass : R.

(** Modelled from the spec: the constructor [PointMass] (body.py) is defined
    outside [stance.py].  [Stance.load] calls it with the keyword
    arguments of the persisted [com] record, whose only field is [pos]. *)
Definition PointMass_new (kw : gmap string json) : result PointMass :=
  match kw !! "pos" with
  | None => inl TypeError
  | Some pos =>
      pos ← Json.to_vec3 pos;
      match kw !! "mass" with
      | None => mret (mkPointMass pos default_mass)
      | Some m => m ← Json.to_num m; mret (mkPointMass pos m)
      end
  end.

(** Modelled from the spec: [ContactSet.compute_static_equilibrium_polygon]
    (contact.py) is defined outside [stance.py].  By the specification the
    equilibrium-polygon calculator fails with [InsufficientContacts] on an
    empty contact set; on the others it projects. *)
Definition ContactSet_compute_static_equilibrium_polygon
    (cs : list Contact) (method : string) : result (list vec2) :=
  match cs with
  | [] => inl (Raised InsufficientContacts)
  | _ => sep_projection cs method
  end.

(** *** [Stance.load] and [Stance.save] *)

Definition load (fs : files) (path : string) : M unit :=
  d ← lift (match fs !! path with
            | Some d => inr d
            | None => inl IOError
            end);
  has_com ← lift (Json.contains d "com");
  (if (has_com : bool) then
     kw ← lift (Json.getitem d "com" ≫= Json.kwargs);
     pm ← lift (PointMass_new kw);
     set_com pm
   else mret tt);;
  (lift (load_contact d "left_foot") ≫= set_left_foot);;
  (lift (load_contact d "right_foot") ≫= set_right_foot);;
  (lift (load_contact d "left_hand") ≫= set_left_hand);;
  (lift (load_contact d "right_hand") ≫= set_right_hand).

(** [d[key] = c.dict_repr] when the slot holds a contact [c]. *)
Definition save_contact (key : string) (slot : option Contact)
    (d : gmap string json) : gmap string json :=
  match slot with
  | Some c => <[key := dict_repr c]> d
  | None => d
  end.

(** Whether the operating system lets [open(path, 'w')] succeed: the
    directory of [path] exists and may be written. *)
Variable writable : string -> bool.

(** [open(path, 'w')]: [IOError] on the empty path and on a path that cannot
    be opened for writing. *)
Definition open_w (path : string) : result unit :=
  if String.eqb path "" then inl IOError
  else if writable path then inr tt
  else inl IOError.

(** [save] returns the file system after the write.  The test
    [self.com is not None] of the source always holds here, [com] being a
    [PointMass] by the constructor's assertion, so the record of the centre
    of mass is always part of the document.  The document is built before
    the file is opened; when [open] raises, nothing is written. *)
Definition save (fs : files) (path : string) : M files :=
  let d : gmap string json := ∅ in
  c ← attr com;
  let d := <["com" := JObj {["pos" := Json.of_vec3 (p c)]}]> d in
  lf ← attr left_foot;
  let d := save_contact "left_foot" lf d in
  rf ← attr right_foot;
  let d := save_contact "right_foot" rf d in
  lh ← attr left_hand;
  let d := save_contact "left_hand" lh d in
  rh ← attr right_hand;
  let d := save_contact "right_hand" rh d in
  lift (open_w path);;
  mret (<[path := JObj d]> fs).

(** [Stance.from_json] *)
Definition from_json (fs : files) (path : string) : Stance * result unit :=
  let com := mkPointMass (0, 0, 0) 0 in
  let stance := Stance_init com None None None None in
  load fs path stance.

(** The document that [save] writes for the stance [s]. *)
Local Abbreviation saved_document s :=
  (save_contact "right_hand" (right_hand s)
     (save_contact "left_hand" (left_hand s)
        (save_contact "right_foot" (right_foot s)
           (save_contact "left_foot" (left_foot s)
              (<["com" := JObj {["pos" := Json.of_vec3 (p (com s))]}]> ∅))))).

(** *** [Stance.compute_static_equilibrium_polygon] *)

Definition compute_static_equilibrium_polygon (method : string)
    : M (list vec2) :=
  cs ← attr contacts;
  sep_vertices' ← lift (ContactSet_compute_static_equilibrium_polygon cs method);
  hrep ← lift (compute_polytope_halfspaces sep_vertices');
  set_sep_hrep hrep;;
  hrep ← attr sep_hrep;
  A ← lift (match hrep with
            | Some (A, _) => inr A
            | None => inl TypeError
            end);
  set_sep_norm (map norm A);;
  set_sep_vertices sep_vertices';;
  mret sep_vertices'.

(** *** [Stance.compute_pendular_accel_cone] *)

Definition expand_reduced_pendular_cone (reduced_hull : list vec2)
    (zdd_max : option R) : list vec3 :=
  let g := - idx2 gravity in
  let zdd := match zdd_max with
             | None => g
             | Some zdd_max => zdd_max
             end in
  let vertices_at_zdd :=
    map (fun '(a, b) => (a * (g + zdd), b * (g + zdd), zdd)) reduced_hull in
  gravity :: vertices_at_zdd.

(** The body of the loop over [com_vertices]: the pair [(B, c)] for the
    sample point [v]. *)
Definition pendular_system (CWC_O : list (vec3 * vec3)) (v : vec3)
    : list vec3 * list R :=
  let B := map (fun row => add3 (fst row) (cross (snd row) v)) CWC_O in
  let c := map (fun r => dot3 r gravity) B in
  (B, c).

Definition compute_pendular_accel_cone (com_vertices : option (list vec3))
    (zdd_max : option R) (reduced : bool) : M cone :=
  com_vertices ← match com_vertices with
                 | None => c ← attr com; mret [p c]
                 | Some vs => mret vs
                 end;
  cs ← attr contacts;
  CWC_O ← lift (compute_wrench_inequalities cs (0, 0, 0));
  let B_list := map (fun v => fst (pendular_system CWC_O v)) com_vertices in
  let c_list := map (fun v => snd (pendular_system CWC_O v)) com_vertices in
  B ← lift (Mat.vstack B_list);
  c ← lift (Mat.hstack1 c_list);
  except_QhullError
    (let g := - idx2 gravity in
     let B_2d := map xy B in
     let sigma := map (fun ci => ci / g) c in
     reduced_hull ← lift (compute_polygon_hull B_2d sigma);
     if reduced then mret (Reduced2D reduced_hull)
     else mret (Cone3D (expand_reduced_pendular_cone reduced_hull zdd_max)))
    (raise (PyException "Cannot compute 2D polar for acceleration cone")).

(** *** [Stance.compute_zmp_support_area] *)

(** The statements of [compute_zmp_support_area] before its [return], with
    the local constant [mass] as a parameter: the problem handed to
    [project_polytope]. *)
Definition zmp_projection_problem (mass : R) (plane : vec3)
    : M projection_problem :=
  let z_zmp := idx2 plane in
  let crossmat_n := [[0; -1; 0]; [1; 0; 0]; [0; 0; 0]] in
  cs ← attr contacts;
  G ← lift (compute_grasp_matrix cs (0, 0, 0));
  let F := Mat.block_diag (map wrench_inequalities cs) in
  c ← attr com;
  let '(px, py, pz) := p c in
  B1 ← lift (Mat.hstack2 (Mat.scale (z c) (Mat.eye 3)) crossmat_n);
  let B2 := Mat.zeros 3 ++ [px; py; pz] in
  let B := B1 ++ [B2] in
  BG ← lift (Mat.matmul B G);
  let C := Mat.scale (1 / (mass * 9.81)) BG in
  let d := [px; py; pz] ++ [0] in
  let E := Mat.scale ((z_zmp - z c) / (mass * 9.81)) (firstn 2 G) in
  let f := [x c; y c] in
  mret {| proj := (E, f);
          ineq := (F, Mat.zeros (length F));
          eq := (C, d) |}.

Definition compute_zmp_support_area (plane : vec3) (method : string)
    : M (list vec2) :=
  let mass := 42 in
  problem ← zmp_projection_problem mass plane;
  lift (project_polytope problem method).

(** *** [Stance.dist_to_sep_edge] *)

Definition dist_to_sep_edge (com : vec3) : M R :=
  hrep ← attr sep_hrep;
  '(A, b) ← lift (match hrep with
                  | Some hrep => inr hrep
                  | None => inl TypeError
                  end);
  num ← lift (broadcast Rminus b (dot_rows2 A (xy com)));
  sep_norm ← attr_opt "sep_norm" sep_norm;
  alg_dists ← lift (broadcast Rdiv num sep_norm);
  lift (py_min alg_dists).

(** *** [Stance.find_static_supporting_wrenches] *)

Definition find_static_supporting_wrenches : M (list (Contact * list R)) :=
  c ← attr com;
  let wrench := [0; 0; mass c * 9.81] ++ Mat.zeros 3 in
  cs ← attr contacts;
  lift (find_supporting_wrenches cs wrench (p c)).

(** ** The regions that the computed systems describe *)

(** Modelled from the spec: [pypoman.compute_polygon_hull] is defined
    outside [stance.py]; it enumerates the vertices of the polygon
    [{x : B x <= c}]. *)
Definition in_polygon (hrep : list vec2 * list R) (x : vec2) : Prop :=
  Forall2 (fun a c => dot2 a x <= c) (fst hrep) (snd hrep).

(** The interior, the boundary and the outside of that polygon. *)
Definition strictly_inside (hrep : list vec2 * list R) (x : vec2) : Prop :=
  Forall2 (fun a c => dot2 a x < c) (fst hrep) (snd hrep).

Definition on_boundary (hrep : list vec2 * list R) (x : vec2) : Prop :=
  in_polygon hrep x /\
  exists i a c, fst hrep !! i = Some a /\ snd hrep !! i = Some c /\ dot2 a x = c.

Definition outside (hrep : list vec2 * list R) (x : vec2) : Prop :=
  exists i a c, fst hrep !! i = Some a /\ snd hrep !! i = Some c /\ c < dot2 a x.

(** The signed distance in the specification's words: the minimum over the
    rows [i] of [(b_i - A_i . x) / ||A_i||]. *)
Definition signed_distance (hrep : list vec2 * list R) (x : vec2)
    : option R :=
  match map (fun '(a, b) => (b - dot2 a x) / norm a)
            (combine (fst hrep) (snd hrep)) with
  | [] => None
  | d :: ds => Some (minimum d ds)
  end.

(** The half-space system that [compute_pendular_accel_cone] hands to
    [compute_polygon_hull] for the sample points [com_vertices]. *)
Definition reduced_halfspaces (CWC_O : list (vec3 * vec3))
    (com_vertices : list vec3) : list vec2 * list R :=
  let g := - idx2 gravity in
  (map xy (concat (map (fun v => fst (pendular_system CWC_O v)) com_vertices)),
   map (fun ci => ci / g)
       (concat (map (fun v => snd (pendular_system CWC_O v)) com_vertices))).

(** The accelerations that the expansion rule of
    [expand_reduced_pendular_cone] generates from the points of the reduced
    polygon: the apex [gravity], and [(x (g + zdd), y (g + zdd), zdd)] for
    [(x, y)] in the polygon and [zdd] not below free fall. *)
Definition in_accel_cone (hrep : list vec2 * list R) (acc : vec3) : Prop :=
  let g := - idx2 gravity in
  acc = gravity \/
  exists (x : vec2) (zdd : R),
    0 <= g + zdd /\ in_polygon hrep x /\
    acc = (fst x * (g + zdd), snd x * (g + zdd), zdd).

(** Modelled from the spec: [pypoman.project_polytope] is defined outside
    [stance.py]; its output region is [{E x + f : F x <= h, C x = d}]. *)
Definition in_projection (pb : projection_problem) (y : list R) : Prop :=
  exists x : list R,
    length x = Mat.width (fst (proj pb)) /\
    Forall2 Rle (Mat.matvec (fst (ineq pb)) x) (snd (ineq pb)) /\
    Mat.matvec (fst (eq pb)) x = snd (eq pb) /\
    y = Mat.vadd (Mat.matvec (fst (proj pb)) x) (snd (proj pb)).

(** ** Bodies of a stance and binding to a robot *)

(** An element of [Stance.bodies]: the centre of mass or a contact. *)
Inductive body :=
| BodyPoint (pm : PointMass)
| BodyContact (c : Contact).

(** The property [Stance.bodies]: [filter(None, [com, left_foot, left_hand,
    right_foot, right_hand])]; [hide] and [show] iterate over it. *)
Definition bodies (s : Stance) : list body :=
  omap (λ o : option body, o)
    [Some (BodyPoint (com s));
     BodyContact <$> left_foot s;
     BodyContact <$> left_hand s;
     BodyContact <$> right_foot s;
     BodyContact <$> right_hand s].

(** The four roles, in the order in which [bind] visits them. *)
Inductive role := LeftFoot | LeftHand | RightFoot | RightHand.

(** What [bind] reads of its [robot] argument: the links [robot.left_foot],
    [robot.left_hand], [robot.right_foot], [robot.right_hand] (numbered) and
    the posture [robot.q_halfsit]. *)
Record Robot := mkRobot {
  robot_link : role -> nat;
  q_halfsit : list R
}.

(** The IK tasks that [bind] constructs, each with the arguments of its
    constructor call after [robot]. *)
Inductive task :=
| ContactTask (link : nat) (c : Contact)
| DOFTask (dof_id : nat) (dof_target : R)
| COMTask (com : PointMass)
| PostureTask (q : list R)
| MinVelTask.

(** The calls that [bind] makes on [robot.ik]. *)
Inductive ik_call :=
| IkClear
| IkAdd (t : task).

(** The effects of [bind]: the assignments [contact.link = link] it makes on
    the engaged contacts, the calls on [robot.ik], and the stance stored in
    [robot.stance]. *)
Record binding := mkBinding {
  link_assignments : list (role * nat);
  ik_calls : list ik_call;
  robot_stance : Stance
}.

(** The statements of [bind] for one role: the link assignment and the
    contact task, when the slot holds a contact. *)
Definition bind_role (robot : Robot) (r : role) (slot : option Contact)
    : list (role * nat) * list task :=
  match slot with
  | Some c => ([(r, robot_link robot r)], [ContactTask (robot_link robot r) c])
  | None => ([], [])
  end.

(** [Stance.bind]; [dof_tasks] is listed in the iteration order of the
    dictionary. *)
Definition Stance_bind (robot : Robot) (reg : string) (s : Stance) : binding :=
  let '(l1, t1) := bind_role robot LeftFoot (left_foot s) in
  let '(l2, t2) := bind_role robot LeftHand (left_hand s) in
  let '(l3, t3) := bind_role robot RightFoot (right_foot s) in
  let '(l4, t4) := bind_role robot RightHand (right_hand s) in
  let tasks := t1 ++ t2 ++ t3 ++ t4 in
  let tasks :=
    tasks ++ map (fun '(dof_id, dof_target) => DOFTask dof_id dof_target)
                 (dof_tasks s) in
  let tasks := tasks ++ [COMTask (com s)] in
  let tasks :=
    if String.eqb reg "posture"
    then tasks ++ [PostureTask (q_halfsit robot)]
    else tasks ++ [MinVelTask] in
  {| link_assignments := l1 ++ l2 ++ l3 ++ l4;
     ik_calls := IkClear :: map IkAdd tasks;
     robot_stance := s |}.


(** ** Lemmas on arrays *)

Lemma broadcast_same_length f (u v : list R) :
  length u = length v ->
  broadcast f u v = inr (map (fun '(x, y) => f x y) (combine u v)).
Proof.
  intros Hlen. unfold broadcast.
  now rewrite Hlen, Nat.eqb_refl.
Qed.

Lemma minimum_le_head d ds : minimum d ds <= d.
Proof.
  destruct ds as [|e ds]; simpl.
  - lra.
  - apply Rmin_l.
Qed.

Lemma minimum_le_In e : forall d ds, In e (d :: ds) -> minimum d ds <= e.
Proof.
  intros d ds. revert d.
  induction ds as [|d' ds IH]; intros d [Heq | Hin]; simpl in *.
  - lra.
  - contradiction.
  - subst. apply Rmin_l.
  - eapply Rle_trans; [apply Rmin_r | apply IH, Hin].
Qed.

Lemma minimum_In : forall d ds, In (minimum d ds) (d :: ds).
Proof.
  intros d ds. revert d.
  induction ds as [|d' ds IH]; intros d; simpl.
  - now left.
  - destruct (Rle_dec d (minimum d' ds)) as [Hle | Hgt].
    + rewrite Rmin_left by lra. now left.
    + rewrite Rmin_right by lra. right. apply IH.
Qed.

Lemma minimum_pos d ds : Forall (fun e => 0 < e) (d :: ds) -> 0 < minimum d ds.
Proof.
  intros Hall. rewrite List.Forall_forall in Hall.
  apply Hall, minimum_In.
Qed.

Lemma minimum_nonneg d ds :
  Forall (fun e => 0 <= e) (d :: ds) -> 0 <= minimum d ds.
Proof.
  intros Hall. rewrite List.Forall_forall in Hall.
  apply Hall, minimum_In.
Qed.

Lemma norm_pos (a : vec2) : a <> (0, 0) -> 0 < norm a.
Proof.
  destruct a as [a1 a2]. intros Hne. unfold norm, dot2; simpl.
  apply sqrt_lt_R0.
  destruct (Req_dec a1 0) as [-> | H1].
  - destruct (Req_dec a2 0) as [-> | H2]; [congruence | nra].
  - nra.
Qed.

Lemma lookup_combine_In {A B} (l : list A) (k : list B) i a c :
  l !! i = Some a -> k !! i = Some c -> In (a, c) (combine l k).
Proof.
  revert k i.
  induction l as [|a' l IH]; intros [|c' k] [|i] Hl Hk; simpl in *;
    try discriminate.
  - left. congruence.
  - right. eapply IH; eassumption.
Qed.

(** The array [(b - dot(A, x)) / sep_norm] row by row. *)
Lemma alg_dists_rows (x : vec2) : forall (A : list vec2) (b : list R),
  length A = length b ->
  map (fun '(n, d) => n / d)
      (combine (map (fun '(bi, ax) => bi - ax) (combine b (dot_rows2 A x)))
               (map norm A))
  = map (fun '(a, bi) => (bi - dot2 a x) / norm a) (combine A b).
Proof.
  induction A as [|a A IH]; intros [|bi b] Hlen; simpl in *;
    try discriminate; auto.
  f_equal. apply IH. congruence.
Qed.

(** ** The equilibrium polygon and the distance to its edges *)

(** What a successful [compute_static_equilibrium_polygon] leaves in [self]. *)
Lemma compute_static_equilibrium_polygon_state method s s' vs :
  compute_static_equilibrium_polygon method s = (s', inr vs) ->
  exists A b,
    compute_polytope_halfspaces vs = inr (A, b) /\
    s' = mkStance (com s) (dof_tasks s) (left_foot s) (left_hand s)
           (right_foot s) (right_hand s)
           (Some (A, b)) (Some (map norm A)) (Some vs).
Proof.
  unfold compute_static_equilibrium_polygon. run_method.
  destruct (ContactSet_compute_static_equilibrium_polygon (contacts s) method)
    as [e | vs0]; [discriminate |].
  destruct (compute_polytope_halfspaces vs0) as [e | [A b]] eqn:Hh;
    [discriminate |].
  unfold set_sep_hrep, set_sep_norm, set_sep_vertices; simpl.
  intros H. injection H as <- <-.
  exists A, b. split; [exact Hh | reflexivity].
Qed.

Lemma dist_to_sep_edge_rows s com A b :
  sep_hrep s = Some (A, b) ->
  sep_norm s = Some (map norm A) ->
  length A = length b ->
  dist_to_sep_edge com s =
    (s, py_min (map (fun '(a, bi) => (bi - dot2 a (xy com)) / norm a)
                    (combine A b))).
Proof.
  intros Hh Hn Hlen. unfold dist_to_sep_edge. run_method.
  rewrite Hh, Hn.
  rewrite broadcast_same_length
    by (unfold dot_rows2; rewrite length_map; congruence).
  rewrite broadcast_same_length.
  - now rewrite alg_dists_rows.
  - rewrite !length_map, length_combine.
    unfold dot_rows2. rewrite length_map, <- Hlen. apply Nat.min_id.
Qed.

Lemma rows_strictly_inside (x : vec2) : forall (A : list vec2) (b : list R),
  Forall (fun a => a <> (0, 0)) A ->
  strictly_inside (A, b) x ->
  Forall (fun e => 0 < e)
    (map (fun '(a, bi) => (bi - dot2 a x) / norm a) (combine A b)).
Proof.
  unfold strictly_inside; simpl.
  intros A b Hnz Hin. revert Hnz.
  induction Hin as [|a bi A b Hlt _ IH]; intros Hnz; simpl.
  - constructor.
  - inversion Hnz as [|? ? Ha HA]; subst.
    constructor; [| apply IH, HA].
    apply Rdiv_lt_0_compat; [lra | apply norm_pos, Ha].
Qed.

Lemma rows_in_polygon (x : vec2) : forall (A : list vec2) (b : list R),
  Forall (fun a => a <> (0, 0)) A ->
  in_polygon (A, b) x ->
  Forall (fun e => 0 <= e)
    (map (fun '(a, bi) => (bi - dot2 a x) / norm a) (combine A b)).
Proof.
  unfold in_polygon; simpl.
  intros A b Hnz Hin. revert Hnz.
  induction Hin as [|a bi A b Hle _ IH]; intros Hnz; simpl.
  - constructor.
  - inversion Hnz as [|? ? Ha HA]; subst.
    constructor; [| apply IH, HA].
    apply Rle_mult_inv_pos; [lra | apply norm_pos, Ha].
Qed.

Lemma row_distance_In (x : vec2) (A : list vec2) (b : list R) i a c :
  A !! i = Some a -> b !! i = Some c ->
  In ((c - dot2 a x) / norm a)
     (map (fun '(a, bi) => (bi - dot2 a x) / norm a) (combine A b)).
Proof.
  intros HA Hb.
  apply (in_map (fun '(a, bi) => (bi - dot2 a x) / norm a) _ (a, c)).
  eapply lookup_combine_In; eassumption.
Qed.

(** C1.  Once [compute_static_equilibrium_polygon] has stored a half-space
    form [(A, b)] with as many rows in [A] as in [b], at least one row and
    no null row, [dist_to_sep_edge com] returns, without touching the
    stance, the minimum over the rows [i] of [(b_i - A_i . com_xy) / ||A_i||];
    that value is positive when [com_xy] is strictly inside the polygon,
    negative when it is outside and zero when it is on the boundary, which
    is where the vertices of the polygon lie. *)
Theorem dist_to_sep_edge_signed_distance :
  forall (method : string) (s s' : Stance) (vs : list vec2)
         (A : list vec2) (b : list R) (com : vec3),
    compute_static_equilibrium_polygon method s = (s', inr vs) ->
    sep_hrep s' = Some (A, b) ->
    length A = length b ->
    A <> [] ->
    Forall (fun a => a <> (0, 0)) A ->
    exists d : R,
      dist_to_sep_edge com s' = (s', inr d) /\
      signed_distance (A, b) (xy com) = Some d /\
      (strictly_inside (A, b) (xy com) -> 0 < d) /\
      (outside (A, b) (xy com) -> d < 0) /\
      (on_boundary (A, b) (xy com) -> d = 0).
Proof.
  intros method s s' vs A b com Hrun Hh Hlen Hne Hnz.
  destruct (compute_static_equilibrium_polygon_state _ _ _ _ Hrun)
    as (A' & b' & _ & Hs').
  assert (Hn : sep_norm s' = Some (map norm A)).
  { rewrite Hs' in Hh |- *; simpl in *. congruence. }
  pose proof (dist_to_sep_edge_rows s' com A b Hh Hn Hlen) as Hdist.
  unfold signed_distance; simpl.
  set (x := xy com) in *.
  set (ds := map (fun '(a, bi) => (bi - dot2 a x) / norm a) (combine A b)) in *.
  assert (Hds : exists d ds', ds = d :: ds').
  { subst ds. destruct A as [|a A]; [congruence |].
    destruct b as [|bi b]; [discriminate |]. simpl. eauto. }
  destruct Hds as (d & ds' & Hds).
  exists (minimum d ds').
  split; [| split; [| split; [| split]]].
  - rewrite Hdist, Hds. reflexivity.
  - now rewrite Hds.
  - intros Hin. apply minimum_pos. rewrite <- Hds.
    apply rows_strictly_inside; assumption.
  - intros (i & a & c & HA & Hb & Hlt).
    assert (Hpos : 0 < norm a).
    { simpl in HA. apply norm_pos.
      exact (Forall_lookup_1 (fun a => a <> (0, 0)) A i a Hnz HA). }
    apply Rle_lt_trans with ((c - dot2 a x) / norm a).
    + apply minimum_le_In. rewrite <- Hds.
      eapply row_distance_In; eassumption.
    + apply Rmult_neg_pos; [lra | apply Rinv_0_lt_compat, Hpos].
  - intros (Hin & i & a & c & HA & Hb & Heq).
    apply Rle_antisym.
    + apply Rle_trans with ((c - dot2 a x) / norm a).
      * apply minimum_le_In. rewrite <- Hds.
        eapply row_distance_In; eassumption.
      * rewrite Heq. unfold Rdiv. rewrite Rminus_diag, Rmult_0_l. lra.
    + apply minimum_nonneg. rewrite <- Hds.
      apply rows_in_polygon; assumption.
Qed.

(** ** Staleness and empty contact sets *)

(** C5 (as the source has it).  As long as [sep_hrep] is [None], which is
    how [__init__] leaves it, [dist_to_sep_edge] returns no value and leaves
    the stance as it is: unpacking [None] raises Python's [TypeError], which
    is none of the specification's conditions. *)
Theorem dist_to_sep_edge_stale :
  forall (s : Stance) (com : vec3),
    sep_hrep s = None ->
    dist_to_sep_edge com s = (s, inl TypeError) /\
    condition_of TypeError = None.
Proof.
  intros s com Hnone. split; [| reflexivity].
  unfold dist_to_sep_edge. run_method. now rewrite Hnone.
Qed.

Lemma contacts_empty s :
  left_foot s = None -> left_hand s = None ->
  right_foot s = None -> right_hand s = None ->
  contacts s = [].
Proof.
  intros Hlf Hlh Hrf Hrh. unfold contacts.
  now rewrite Hlf, Hlh, Hrf, Hrh.
Qed.

(** C7.  On a stance whose four role slots are [None] the equilibrium-polygon
    calculator fails with [InsufficientContacts]: no polygon is returned and
    no cached field is written. *)
Theorem compute_static_equilibrium_polygon_no_contact :
  forall (s : Stance) (method : string),
    left_foot s = None -> left_hand s = None ->
    right_foot s = None -> right_hand s = None ->
    compute_static_equilibrium_polygon method s
      = (s, inl (Raised InsufficientContacts)).
Proof.
  intros s method Hlf Hlh Hrf Hrh.
  unfold compute_static_equilibrium_polygon. run_method.
  now rewrite (contacts_empty s Hlf Hlh Hrf Hrh).
Qed.

(** ** The pendular acceleration cone *)

(** The sample points that [compute_pendular_accel_cone] works on. *)
Lemma compute_pendular_accel_cone_run com_vertices zdd_max reduced s vs CWC_O :
  vs = match com_vertices with
       | None => [p (com s)]
       | Some vs => vs
       end ->
  vs <> [] ->
  compute_wrench_inequalities (contacts s) (0, 0, 0) = inr CWC_O ->
  compute_pendular_accel_cone com_vertices zdd_max reduced s =
    (s, match compute_polygon_hull (fst (reduced_halfspaces CWC_O vs))
                                   (snd (reduced_halfspaces CWC_O vs)) with
        | inr hull =>
            inr (if reduced then Reduced2D hull
                 else Cone3D (expand_reduced_pendular_cone hull zdd_max))
        | inl QhullError =>
            inl (PyException "Cannot compute 2D polar for acceleration cone")
        | inl e => inl e
        end).
Proof.
  intros Hvs Hne HCWC.
  unfold compute_pendular_accel_cone, except_QhullError.
  destruct com_vertices as [vs0|]; subst vs; run_method; rewrite HCWC.
  1: destruct vs0 as [|v vs']; [congruence |].
  all: unfold reduced_halfspaces; simpl.
  all: match goal with
       | |- context [compute_polygon_hull ?B ?c] =>
           destruct (compute_polygon_hull B c) as [[] | hull]
       end; try reflexivity.
  all: now destruct reduced.
Qed.

(** C2.  When the wrench cone and the 2D hull of the reduced system are
    computed, [compute_pendular_accel_cone] with [reduced=False] returns the
    gravity vector followed by the point [(a (g + zdd), b (g + zdd), zdd)]
    for each vertex [(a, b)] of the reduced hull, in order, where [g] is
    minus the vertical component of [gravity] and [zdd] is [zdd_max] when it
    is supplied ([g] otherwise); with [reduced=True] it returns the reduced
    hull itself. *)
Theorem compute_pendular_accel_cone_vertices :
  forall (s : Stance) (com_vertices : option (list vec3)) (zdd_max : option R)
         (vs : list vec3) (CWC_O : list (vec3 * vec3)) (hull : list vec2),
    vs = match com_vertices with
         | None => [p (com s)]
         | Some vs => vs
         end ->
    vs <> [] ->
    compute_wrench_inequalities (contacts s) (0, 0, 0) = inr CWC_O ->
    compute_polygon_hull (fst (reduced_halfspaces CWC_O vs))
                         (snd (reduced_halfspaces CWC_O vs)) = inr hull ->
    let g := - idx2 gravity in
    let zdd := match zdd_max with
               | Some zdd_max => zdd_max
               | None => g
               end in
    compute_pendular_accel_cone com_vertices zdd_max false s
      = (s, inr (Cone3D
                   (gravity ::
                    map (fun '(a, b) => (a * (g + zdd), b * (g + zdd), zdd))
                        hull))) /\
    compute_pendular_accel_cone com_vertices zdd_max true s
      = (s, inr (Reduced2D hull)).
Proof.
  intros s com_vertices zdd_max vs CWC_O hull Hvs Hne HCWC Hhull g zdd.
  split.
  - rewrite (compute_pendular_accel_cone_run _ _ _ _ _ _ Hvs Hne HCWC), Hhull.
    unfold expand_reduced_pendular_cone. subst g zdd.
    now destruct zdd_max.
  - now rewrite (compute_pendular_accel_cone_run _ _ _ _ _ _ Hvs Hne HCWC), Hhull.
Qed.

(** C6.  When [compute_polygon_hull] cannot form the hull of the reduced
    system and raises [QhullError], [compute_pendular_accel_cone] raises the
    exception of its [except] clause, which stands for [ProjectionFailed]:
    the caller receives no cone, in either output mode. *)
Theorem compute_pendular_accel_cone_hull_failure :
  forall (s : Stance) (com_vertices : option (list vec3)) (zdd_max : option R)
         (reduced : bool) (vs : list vec3) (CWC_O : list (vec3 * vec3)),
    vs = match com_vertices with
         | None => [p (com s)]
         | Some vs => vs
         end ->
    vs <> [] ->
    compute_wrench_inequalities (contacts s) (0, 0, 0) = inr CWC_O ->
    compute_polygon_hull (fst (reduced_halfspaces CWC_O vs))
                         (snd (reduced_halfspaces CWC_O vs)) = inl QhullError ->
    exists e : exn,
      compute_pendular_accel_cone com_vertices zdd_max reduced s = (s, inl e) /\
      e = PyException "Cannot compute 2D polar for acceleration cone" /\
      condition_of e = Some ProjectionFailed.
Proof.
  intros s com_vertices zdd_max reduced vs CWC_O Hvs Hne HCWC Hhull.
  eexists. split; [| split; reflexivity].
  now rewrite (compute_pendular_accel_cone_run _ _ _ _ _ _ Hvs Hne HCWC), Hhull.
Qed.

Lemma in_polygon_app (B1 B2 : list vec2) (c1 c2 : list R) (x : vec2) :
  length B1 = length c1 ->
  in_polygon (B1 ++ B2, c1 ++ c2) x <->
  in_polygon (B1, c1) x /\ in_polygon (B2, c2) x.
Proof.
  unfold in_polygon; simpl. intros Hlen. split.
  - intros H. apply Forall2_app_inv in H; [exact H | exact Hlen].
  - intros [H1 H2]. now apply Forall2_app.
Qed.

Lemma reduced_halfspaces_two CWC_O v1 v2 :
  reduced_halfspaces CWC_O [v1; v2] =
    (fst (reduced_halfspaces CWC_O [v1]) ++ fst (reduced_halfspaces CWC_O [v2]),
     snd (reduced_halfspaces CWC_O [v1]) ++ snd (reduced_halfspaces CWC_O [v2])).
Proof.
  unfold reduced_halfspaces; simpl.
  now rewrite !app_nil_r, !map_app.
Qed.

Lemma reduced_halfspaces_length CWC_O v :
  length (fst (reduced_halfspaces CWC_O [v]))
  = length (snd (reduced_halfspaces CWC_O [v])).
Proof.
  unfold reduced_halfspaces; simpl.
  now rewrite !app_nil_r, !length_map.
Qed.

(** C4.  The system that [compute_pendular_accel_cone] builds for the sample
    points [[v1; v2]] is the system for [v1] stacked on the system for [v2]:
    its reduced polygon is the intersection of the two single-point
    polygons, and the cone of accelerations over it is included in the cone
    for [v1] alone and in the cone for [v2] alone. *)
Theorem pendular_cone_conservative :
  forall (CWC_O : list (vec3 * vec3)) (v1 v2 : vec3),
    (forall x : vec2,
       in_polygon (reduced_halfspaces CWC_O [v1; v2]) x <->
       in_polygon (reduced_halfspaces CWC_O [v1]) x /\
       in_polygon (reduced_halfspaces CWC_O [v2]) x) /\
    (forall acc : vec3,
       in_accel_cone (reduced_halfspaces CWC_O [v1; v2]) acc ->
       in_accel_cone (reduced_halfspaces CWC_O [v1]) acc /\
       in_accel_cone (reduced_halfspaces CWC_O [v2]) acc).
Proof.
  intros CWC_O v1 v2.
  assert (H2d : forall x : vec2,
             in_polygon (reduced_halfspaces CWC_O [v1; v2]) x <->
             in_polygon (reduced_halfspaces CWC_O [v1]) x /\
             in_polygon (reduced_halfspaces CWC_O [v2]) x).
  { intros x. rewrite reduced_halfspaces_two.
    rewrite in_polygon_app by apply reduced_halfspaces_length.
    now destruct (reduced_halfspaces CWC_O [v1]), (reduced_halfspaces CWC_O [v2]). }
  split; [exact H2d |].
  intros acc [Hapex | (x & zdd & Hz & Hin & Hacc)].
  - split; left; exact Hapex.
  - apply H2d in Hin. destruct Hin as [Hin1 Hin2].
    split; right; exists x, zdd; auto.
Qed.

(** ** The ZMP support area *)

Lemma dot_vscale_l (k : R) : forall r x : list R,
  Mat.dot (Mat.vscale k r) x = k * Mat.dot r x.
Proof.
  induction r as [|a r IH]; intros [|b x]; simpl; try lra.
  rewrite IH. lra.
Qed.

Lemma dot_vscale_r (k : R) : forall r x : list R,
  Mat.dot r (Mat.vscale k x) = k * Mat.dot r x.
Proof.
  induction r as [|a r IH]; intros [|b x]; simpl; try lra.
  rewrite IH. lra.
Qed.

Lemma matvec_scale (k : R) (m : matrix) (x : list R) :
  Mat.matvec (Mat.scale k m) x = Mat.vscale k (Mat.matvec m x).
Proof.
  unfold Mat.matvec, Mat.scale, Mat.vscale. rewrite !map_map.
  apply map_ext. intros r. apply dot_vscale_l.
Qed.

Lemma matvec_vscale (k : R) (m : matrix) (x : list R) :
  Mat.matvec m (Mat.vscale k x) = Mat.vscale k (Mat.matvec m x).
Proof.
  unfold Mat.matvec. unfold Mat.vscale at 2. rewrite map_map.
  apply map_ext. intros r. apply dot_vscale_r.
Qed.

Lemma vscale_vscale (a b : R) (v : list R) :
  Mat.vscale a (Mat.vscale b v) = Mat.vscale (a * b) v.
Proof.
  unfold Mat.vscale. rewrite map_map.
  apply map_ext. intros e. lra.
Qed.

Lemma width_scale (k : R) (m : matrix) :
  Mat.width (Mat.scale k m) = Mat.width m.
Proof.
  destruct m as [|r m]; simpl; [reflexivity |].
  unfold Mat.vscale. apply length_map.
Qed.

(** A cone of wrenches is closed under positive scaling. *)
Lemma vscale_below_zeros (t : R) (n : nat) : forall v : list R,
  0 < t ->
  Forall2 Rle v (Mat.zeros n) ->
  Forall2 Rle (Mat.vscale t v) (Mat.zeros n).
Proof.
  intros v Ht. revert v.
  induction n as [|n IH]; intros v Hv; inversion Hv; subst; simpl.
  - constructor.
  - constructor; [nra | apply IH; assumption].
Qed.

(** Scaling the wrenches by [t] maps the feasible set for the factors
    [(a1, b1)] onto the one for [(a2, b2)] when [a2 t = a1] and [b2 t = b1]. *)
Lemma in_projection_rescale (E C F : matrix) (f d : list R) (n : nat)
    (a1 a2 b1 b2 t : R) (y : list R) :
  0 < t -> a2 * t = a1 -> b2 * t = b1 ->
  in_projection {| proj := (Mat.scale a1 E, f);
                   ineq := (F, Mat.zeros n);
                   eq := (Mat.scale b1 C, d) |} y ->
  in_projection {| proj := (Mat.scale a2 E, f);
                   ineq := (F, Mat.zeros n);
                   eq := (Mat.scale b2 C, d) |} y.
Proof.
  intros Ht Ha Hb (w & Hlen & Hineq & Heq & Hy). simpl in *.
  exists (Mat.vscale t w). simpl.
  split; [| split; [| split]].
  - unfold Mat.vscale at 1. rewrite length_map, Hlen, !width_scale.
    reflexivity.
  - rewrite matvec_vscale. now apply vscale_below_zeros.
  - rewrite matvec_scale, matvec_vscale, vscale_vscale, Hb.
    now rewrite <- matvec_scale.
  - rewrite matvec_scale, matvec_vscale, vscale_vscale, Ha.
    now rewrite <- matvec_scale.
Qed.

(** The problem that [compute_zmp_support_area] builds, for a mass [m]. *)
Lemma zmp_projection_problem_run (plane : vec3) (s : Stance) :
  exists (r : result (matrix * matrix)),
    (forall m' : R,
       zmp_projection_problem m' plane s =
         (s, match r with
             | inl e => inl e
             | inr (G, BG) =>
                 inr {| proj := (Mat.scale ((idx2 plane - z (com s)) / (m' * 9.81))
                                           (firstn 2 G),
                                 [x (com s); y (com s)]);
                        ineq := (Mat.block_diag
                                   (map wrench_inequalities (contacts s)),
                                 Mat.zeros
                                   (length (Mat.block_diag
                                      (map wrench_inequalities (contacts s)))));
                        eq := (Mat.scale (1 / (m' * 9.81)) BG,
                               let '(px, py, pz) := p (com s) in
                               [px; py; pz; 0]) |}
             end)).
Proof.
  unfold zmp_projection_problem. run_method.
  destruct (compute_grasp_matrix (contacts s) (0, 0, 0)) as [e | G].
  { exists (inl e). reflexivity. }
  destruct (p (com s)) as [[px py] pz] eqn:Hp.
  match goal with
  | |- context [Mat.matmul ?B G] => destruct (Mat.matmul B G) as [e | BG]
  end.
  - exists (inl e). reflexivity.
  - exists (inr (G, BG)). reflexivity.
Qed.

(** With the mass of the source, [compute_zmp_support_area] projects the
    problem built for 42 kg. *)
Lemma compute_zmp_support_area_problem plane method s pb :
  zmp_projection_problem 42 plane s = (s, inr pb) ->
  compute_zmp_support_area plane method s = (s, project_polytope pb method).
Proof.
  intros Hpb. unfold compute_zmp_support_area. run_method.
  now rewrite Hpb.
Qed.

(** C3.  The region that [compute_zmp_support_area] projects does not depend
    on the mass constant: when the projection problem is built for a mass
    [m1 > 0], it is built for every other mass [m2 > 0] as well, and the two
    problems have the same projected feasible set
    [{E x + f : F x <= 0, C x = d}]. *)
Theorem zmp_support_area_mass_independent :
  forall (s : Stance) (plane : vec3) (m1 m2 : R) (pb1 : projection_problem),
    0 < m1 -> 0 < m2 ->
    zmp_projection_problem m1 plane s = (s, inr pb1) ->
    exists pb2 : projection_problem,
      zmp_projection_problem m2 plane s = (s, inr pb2) /\
      forall y : list R, in_projection pb1 y <-> in_projection pb2 y.
Proof.
  intros s plane m1 m2 pb1 Hm1 Hm2 Hpb1.
  destruct (zmp_projection_problem_run plane s) as [r Hr].
  rewrite Hr in Hpb1.
  destruct r as [e | [G BG]]; [discriminate |].
  injection Hpb1 as <-.
  eexists. split; [apply Hr |].
  intros y0. split.
  - apply in_projection_rescale with (t := m2 / m1).
    + apply Rdiv_lt_0_compat; assumption.
    + field; split; lra.
    + field; split; lra.
  - apply in_projection_rescale with (t := m1 / m2).
    + apply Rdiv_lt_0_compat; assumption.
    + field; split; lra.
    + field; split; lra.
Qed.

(** ** Supporting wrenches *)

(** C9.  [find_static_supporting_wrenches] asks the supporting-wrench finder
    of the contact set for the wrench [(0, 0, mass * 9.81, 0, 0, 0)] at the
    position of the centre of mass, and returns what the finder returns. *)
Theorem find_static_supporting_wrenches_weight :
  forall s : Stance,
    find_static_supporting_wrenches s =
      (s, find_supporting_wrenches (contacts s)
            [0; 0; mass (com s) * 9.81; 0; 0; 0] (p (com s))).
Proof.
  intros s. reflexivity.
Qed.

(** ** Which methods write the stance *)

Lemma compute_pendular_accel_cone_frame com_vertices zdd_max reduced s :
  fst (compute_pendular_accel_cone com_vertices zdd_max reduced s) = s.
Proof.
  unfold compute_pendular_accel_cone, except_QhullError.
  destruct com_vertices as [vs0|]; run_method.
  all: destruct (compute_wrench_inequalities (contacts s) (0, 0, 0))
         as [e | CWC_O]; [reflexivity |].
  1: destruct vs0 as [|v vs']; [reflexivity |].
  all: simpl.
  all: match goal with
       | |- context [compute_polygon_hull ?B ?c] =>
           destruct (compute_polygon_hull B c) as [[] | hull]
       end; try reflexivity.
  all: now destruct reduced.
Qed.

Lemma compute_zmp_support_area_frame plane method s :
  fst (compute_zmp_support_area plane method s) = s.
Proof.
  unfold compute_zmp_support_area. run_method.
  destruct (zmp_projection_problem_run plane s) as [r Hr].
  rewrite Hr. now destruct r as [e | [G BG]].
Qed.

Lemma dist_to_sep_edge_frame com s :
  fst (dist_to_sep_edge com s) = s.
Proof.
  unfold dist_to_sep_edge. run_method.
  destruct (sep_hrep s) as [[A b] |]; [| reflexivity].
  destruct (broadcast Rminus b (dot_rows2 A (xy com))) as [e | num];
    [reflexivity |].
  destruct (sep_norm s) as [n |]; [| reflexivity].
  now destruct (broadcast Rdiv num n).
Qed.

(** C10.  [compute_pendular_accel_cone], [compute_zmp_support_area],
    [dist_to_sep_edge] and [find_static_supporting_wrenches] leave the stance
    as they found it, whatever they are called with and whether they return
    or raise: the cached fields [sep_hrep], [sep_norm] and [sep_vertices],
    the centre-of-mass target and the four contact slots are unchanged. *)
Theorem queries_leave_stance_unchanged :
  forall (s : Stance),
    (forall com_vertices zdd_max reduced,
       fst (compute_pendular_accel_cone com_vertices zdd_max reduced s) = s) /\
    (forall plane method,
       fst (compute_zmp_support_area plane method s) = s) /\
    (forall com, fst (dist_to_sep_edge com s) = s) /\
    fst (find_static_supporting_wrenches s) = s.
Proof.
  intros s. split; [| split; [| split]].
  - intros. apply compute_pendular_accel_cone_frame.
  - intros. apply compute_zmp_support_area_frame.
  - intros. apply dist_to_sep_edge_frame.
  - reflexivity.
Qed.

(** ** Saving and loading *)

Lemma to_vec3_of_vec3 (v : vec3) : Json.to_vec3 (Json.of_vec3 v) = inr v.
Proof. now destruct v as [[a b] c]. Qed.

Lemma to_vec2s_of_vec2s (l : list vec2) :
  Json.to_vec2s (map Json.of_vec2 l) = inr l.
Proof.
  induction l as [|[a b] l IH]; simpl; [reflexivity |].
  now rewrite IH.
Qed.

(** A contact is rebuilt from its persisted record. *)
Lemma cfd_dict_repr (c : Contact) : cfd (dict_repr c) = inr c.
Proof.
  unfold cfd, dict_repr, Json.getitem.
  repeat (rewrite ?lookup_insert_eq; rewrite ?lookup_insert_ne by done).
  unfold Contact_new, mbind, result_bind, mret, result_ret; simpl.
  rewrite to_vec2s_of_vec2s, !to_vec3_of_vec3.
  now destruct c.
Qed.

Lemma save_contact_lookup_eq key slot (d : gmap string json) :
  d !! key = None ->
  save_contact key slot d !! key = dict_repr <$> slot.
Proof.
  intros Hd. destruct slot as [c|]; simpl.
  - apply lookup_insert_eq.
  - exact Hd.
Qed.

Lemma save_contact_lookup_ne key key' slot (d : gmap string json) :
  key <> key' ->
  save_contact key slot d !! key' = d !! key'.
Proof.
  intros Hne. destruct slot as [c|]; simpl; [| reflexivity].
  now apply lookup_insert_ne.
Qed.

(** Reading a role back from a document whose entry for it is the record of
    the slot, or is missing when the slot is empty. *)
Lemma load_contact_saved (d : gmap string json) key slot :
  d !! key = dict_repr <$> slot ->
  load_contact (JObj d) key = inr slot.
Proof.
  intros Hd. unfold load_contact, Json.contains, Json.getitem.
  rewrite Hd. destruct slot as [c|]; simpl; [| reflexivity].
  unfold mbind, result_bind; simpl.
  now rewrite cfd_dict_repr.
Qed.

Lemma PointMass_new_pos (v : vec3) :
  PointMass_new {["pos" := Json.of_vec3 v]} = inr (mkPointMass v default_mass).
Proof.
  unfold PointMass_new.
  rewrite lookup_singleton_eq, lookup_singleton_ne by done.
  unfold mbind, result_bind. now rewrite to_vec3_of_vec3.
Qed.

(** Loading a document that holds the position [v] of a centre of mass and,
    for each role, the record of the slot [lf], [rf], [lh] or [rh]. *)
Lemma load_saved (fs : files) path (d : gmap string json) s0 v lf rf lh rh :
  fs !! path = Some (JObj d) ->
  d !! "com" = Some (JObj {["pos" := Json.of_vec3 v]}) ->
  d !! "left_foot" = dict_repr <$> lf ->
  d !! "right_foot" = dict_repr <$> rf ->
  d !! "left_hand" = dict_repr <$> lh ->
  d !! "right_hand" = dict_repr <$> rh ->
  load fs path s0 =
    (mkStance (mkPointMass v default_mass) (dof_tasks s0) lf lh rf rh
       (sep_hrep s0) (sep_norm s0) (sep_vertices s0), inr tt).
Proof.
  intros Hfs Hcom Hlf Hrf Hlh Hrh.
  unfold load. run_method. rewrite Hfs.
  rewrite (load_contact_saved d "left_foot" lf Hlf).
  rewrite (load_contact_saved d "right_foot" rf Hrf).
  rewrite (load_contact_saved d "left_hand" lh Hlh).
  rewrite (load_contact_saved d "right_hand" rh Hrh).
  unfold Json.contains, Json.getitem. rewrite Hcom. simpl.
  rewrite PointMass_new_pos. reflexivity.
Qed.

(** What [save] returns: the failure of [open], or the files with the
    document of the stance under [path]. *)
Lemma save_cases (fs : files) path s :
  save fs path s =
    (s, match open_w path with
        | inl e => inl e
        | inr _ => inr (<[path := JObj (saved_document s)]> fs)
        end).
Proof.
  unfold save. run_method. now destruct (open_w path) as [e | []].
Qed.

(** C8.  When saving a stance [s] under a path succeeds, the stance is
    unchanged, and loading that path into any stance [s0] succeeds and gives
    [s0] the position of the centre of mass of [s] and, role by role, the
    contact of [s] (the same shape, friction, position and orientation) or
    no contact where [s] has none; the cached equilibrium-region fields of
    [s0] are not read from the file. *)
Theorem save_load_roundtrip :
  forall (s s0 s1 : Stance) (fs fs' : files) (path : string),
    save fs path s = (s1, inr fs') ->
    s1 = s /\
    exists s' : Stance,
      load fs' path s0 = (s', inr tt) /\
      p (com s') = p (com s) /\
      left_foot s' = left_foot s /\
      right_foot s' = right_foot s /\
      left_hand s' = left_hand s /\
      right_hand s' = right_hand s /\
      sep_hrep s' = sep_hrep s0 /\
      sep_norm s' = sep_norm s0 /\
      sep_vertices s' = sep_vertices s0.
Proof.
  intros s s0 s1 fs fs' path Hsave.
  rewrite save_cases in Hsave.
  destruct (open_w path) as [e | []]; [discriminate Hsave |].
  injection Hsave as <- <-.
  split; [reflexivity |].
  eexists. split.
  - eapply load_saved with (v := p (com s)) (lf := left_foot s)
      (rf := right_foot s) (lh := left_hand s) (rh := right_hand s).
    + apply lookup_insert_eq.
    + rewrite !save_contact_lookup_ne by done. apply lookup_insert_eq.
    + rewrite !save_contact_lookup_ne by done.
      apply save_contact_lookup_eq.
      now rewrite lookup_insert_ne, lookup_empty.
    + rewrite !save_contact_lookup_ne by done.
      apply save_contact_lookup_eq.
      rewrite !save_contact_lookup_ne by done.
      now rewrite lookup_insert_ne, lookup_empty.
    + rewrite !save_contact_lookup_ne by done.
      apply save_contact_lookup_eq.
      rewrite !save_contact_lookup_ne by done.
      now rewrite lookup_insert_ne, lookup_empty.
    + apply save_contact_lookup_eq.
      rewrite !save_contact_lookup_ne by done.
      now rewrite lookup_insert_ne, lookup_empty.
  - simpl. repeat split; reflexivity.
Qed.

(** ** Contacts, bodies and binding *)

(** X1.  [nb_contacts] is the length of [contacts], and at most four. *)
Theorem nb_contacts_counts_contacts :
  forall s : Stance,
    nb_contacts s = length (contacts s) /\ (nb_contacts s <= 4)%nat.
Proof.
  intros s. unfold nb_contacts, contacts.
  destruct (left_foot s), (left_hand s), (right_foot s), (right_hand s);
    simpl; split; try reflexivity; lia.
Qed.

(** X2.  The contacts of a stance are the contents of its four slots, and
    nothing else. *)
Theorem contacts_are_the_slots :
  forall (s : Stance) (c : Contact),
    In c (contacts s) <->
    left_foot s = Some c \/ left_hand s = Some c \/
    right_foot s = Some c \/ right_hand s = Some c.
Proof.
  intros s c. unfold contacts.
  destruct (left_foot s), (left_hand s), (right_foot s), (right_hand s);
    simpl; split; intros H;
    repeat match goal with
           | H : _ \/ _ |- _ => destruct H
           | H : False |- _ => destruct H
           | H : Some _ = Some _ |- _ => injection H as H
           | H : None = Some _ |- _ => discriminate H
           end; subst; auto 6.
Qed.

(** X3.  The bodies of a stance are its centre of mass followed by its
    contacts, in the order of [contacts]. *)
Theorem bodies_com_then_contacts :
  forall s : Stance,
    bodies s = BodyPoint (com s) :: map BodyContact (contacts s).
Proof.
  intros s. unfold bodies, contacts.
  now destruct (left_foot s), (left_hand s), (right_foot s), (right_hand s).
Qed.

Lemma omap_dof_tasks (l : list (nat * R)) :
  omap (fun t => if t is ContactTask _ c then Some c else None)
       (map (fun '(dof_id, dof_target) => DOFTask dof_id dof_target) l)
  = [].
Proof.
  induction l as [|[dof_id dof_target] l IH]; simpl; auto.
Qed.

(** X4.  [bind] first clears the IK, then adds one task per contact (in the
    order of [contacts]), one per joint target, the COM task and one
    regularisation task; it assigns a link to each engaged contact. *)
Theorem bind_tasks :
  forall (robot : Robot) (reg : string) (s : Stance),
    exists tasks : list task,
      ik_calls (Stance_bind robot reg s) = IkClear :: map IkAdd tasks /\
      length tasks = (nb_contacts s + length (dof_tasks s) + 2)%nat /\
      omap (fun t => if t is ContactTask _ c then Some c else None) tasks
        = contacts s /\
      length (link_assignments (Stance_bind robot reg s)) = nb_contacts s.
Proof.
  intros robot reg s. unfold Stance_bind, nb_contacts, contacts.
  destruct (left_foot s), (left_hand s), (right_foot s), (right_hand s);
    simpl; destruct (String.eqb reg "posture");
    eexists; (split; [reflexivity |]).
  all: simpl; rewrite ?length_app, ?length_map; simpl.
  all: split; [lia |]; split; [| reflexivity].
  all: rewrite !omap_app, omap_dof_tasks; reflexivity.
Qed.

(** ** What [load] and [save] do to the stance and to the files *)

Ltac run_load :=
  unfold load, set_com, set_left_foot, set_right_foot, set_left_hand,
    set_right_hand;
  run_method.

Lemma frame_bind {X A B} (f : Stance -> X) (m : M A) (k : A -> M B) :
  (forall s, f (fst (m s)) = f s) ->
  (forall a s, f (fst (k a s)) = f s) ->
  forall s, f (fst (bind m k s)) = f s.
Proof.
  intros Hm Hk s. unfold bind.
  specialize (Hm s). destruct (m s) as [s' [e | a]]; simpl in *.
  - exact Hm.
  - now rewrite Hk.
Qed.

Lemma load_frame (fs : files) path s :
  let s' := fst (load fs path s) in
  dof_tasks s' = dof_tasks s /\ sep_hrep s' = sep_hrep s /\
  sep_norm s' = sep_norm s /\ sep_vertices s' = sep_vertices s.
Proof.
  pose (f := fun s : Stance =>
               (dof_tasks s, sep_hrep s, sep_norm s, sep_vertices s)).
  assert (H : f (fst (load fs path s)) = f s).
  { revert s. unfold load, mbind, M_bind.
    repeat (apply (frame_bind f); [| intros ?]); try reflexivity.
    match goal with
    | |- context [if ?b then _ else _] => destruct b; [| reflexivity]
    end.
    repeat (apply (frame_bind f); [| intros ?]); reflexivity. }
  unfold f in H. simpl in *. now injection H as -> -> -> ->.
Qed.

Lemma dist_to_sep_edge_reads_cache com s1 s2 :
  sep_hrep s1 = sep_hrep s2 -> sep_norm s1 = sep_norm s2 ->
  snd (dist_to_sep_edge com s1) = snd (dist_to_sep_edge com s2).
Proof.
  intros Hh Hn. unfold dist_to_sep_edge. run_method.
  rewrite Hh. destruct (sep_hrep s2) as [[A b] |]; simpl; [| reflexivity].
  destruct (broadcast Rminus b (dot_rows2 A (xy com))) as [e | num]; simpl;
    [reflexivity |].
  rewrite Hn. destruct (sep_norm s2) as [n |]; simpl; [| reflexivity].
  now destruct (broadcast Rdiv num n).
Qed.

(** X5.  [load] fails with [IOError] on a path that holds no file, and
    leaves the stance as it was. *)
Theorem load_missing_file :
  forall (fs : files) (path : string) (s : Stance),
    fs !! path = None ->
    load fs path s = (s, inl IOError).
Proof.
  intros fs path s Hnone. run_load. now rewrite Hnone.
Qed.

(** X6.  [load] is not atomic: when the document has no [com] and no
    [left_foot] entry and its [right_foot] record lacks the key [shape],
    [load] raises [KeyError] after it has already emptied the left-foot
    slot; the other slots and the centre of mass are as before. *)
Theorem load_partial_update :
  forall (fs : files) (path : string) (d cd : gmap string json) (s : Stance),
    fs !! path = Some (JObj d) ->
    d !! "com" = None ->
    d !! "left_foot" = None ->
    d !! "right_foot" = Some (JObj cd) ->
    cd !! "shape" = None ->
    load fs path s =
      (mkStance (com s) (dof_tasks s) None (left_hand s) (right_foot s)
         (right_hand s) (sep_hrep s) (sep_norm s) (sep_vertices s),
       inl (KeyError "shape")).
Proof.
  intros fs path d cd s Hfs Hcom Hlf Hrf Hshape.
  run_load. rewrite Hfs. simpl.
  unfold load_contact, Json.contains, Json.getitem, cfd, mbind, result_bind.
  simpl. rewrite Hcom, Hlf, Hrf. simpl.
  unfold Json.getitem. now rewrite Hshape.
Qed.

(** X7.  Whether it returns or raises, [load] leaves the joint targets and
    the cached equilibrium polygon ([sep_hrep], [sep_norm], [sep_vertices])
    of the stance untouched. *)
Theorem load_keeps_cache :
  forall (fs : files) (path : string) (s : Stance),
    dof_tasks (fst (load fs path s)) = dof_tasks s /\
    sep_hrep (fst (load fs path s)) = sep_hrep s /\
    sep_norm (fst (load fs path s)) = sep_norm s /\
    sep_vertices (fst (load fs path s)) = sep_vertices s.
Proof.
  intros fs path s. apply load_frame.
Qed.

(** X8.  The cache is not invalidated by [load]: after loading other
    contacts, [dist_to_sep_edge] still gives the answer it gave before. *)
Theorem dist_to_sep_edge_after_load :
  forall (fs : files) (path : string) (s : Stance) (com : vec3),
    snd (dist_to_sep_edge com (fst (load fs path s)))
    = snd (dist_to_sep_edge com s).
Proof.
  intros fs path s com.
  destruct (load_frame fs path s) as (_ & Hh & Hn & _).
  now apply dist_to_sep_edge_reads_cache.
Qed.

Lemma bind_inr {A B} (m : M A) (k : A -> M B) s s' b :
  bind m k s = (s', inr b) ->
  exists a s1, m s = (s1, inr a) /\ k a s1 = (s', inr b).
Proof.
  unfold bind. destruct (m s) as [s1 [e | a]]; [discriminate |].
  intros H. eauto.
Qed.

Lemma lift_inr {A} (r : result A) s s' a :
  lift r s = (s', inr a) -> s' = s /\ r = inr a.
Proof. unfold lift. intros H. injection H as <- ->. auto. Qed.

Lemma load_contact_absent (d : gmap string json) key :
  d !! key = None -> load_contact (JObj d) key = inr None.
Proof.
  intros Hnone. unfold load_contact, Json.contains. now rewrite Hnone.
Qed.

(** One line [self.slot = cfd(d[key]) if key in d else None] of [load]. *)
Lemma load_slot_inr (d : gmap string json) key (set : option Contact -> M unit)
    s s' :
  bind (lift (load_contact (JObj d) key)) set s = (s', inr tt) ->
  exists slot, set slot s = (s', inr tt) /\ (d !! key = None -> slot = None).
Proof.
  intros H. apply bind_inr in H as (slot & s1 & Hl & Hset).
  apply lift_inr in Hl as [-> Hl].
  exists slot. split; [exact Hset |].
  intros Hnone. rewrite (load_contact_absent d key Hnone) in Hl. congruence.
Qed.

(** X9.  When [load] succeeds on an object, a missing [com] entry keeps the
    current centre of mass, and a missing role entry empties that slot. *)
Theorem load_absent_entries :
  forall (fs : files) (path : string) (d : gmap string json) (s s' : Stance),
    fs !! path = Some (JObj d) ->
    load fs path s = (s', inr tt) ->
    (d !! "com" = None -> com s' = com s) /\
    (d !! "left_foot" = None -> left_foot s' = None) /\
    (d !! "right_foot" = None -> right_foot s' = None) /\
    (d !! "left_hand" = None -> left_hand s' = None) /\
    (d !! "right_hand" = None -> right_hand s' = None).
Proof.
  intros fs path d s s' Hfs Hload.
  unfold load, mbind, M_bind in Hload.
  apply bind_inr in Hload as (d0 & s1 & H1 & Hload).
  apply lift_inr in H1 as [-> H1]. rewrite Hfs in H1. injection H1 as <-.
  apply bind_inr in Hload as (has_com & s2 & H2 & Hload).
  apply lift_inr in H2 as [-> H2]. simpl in H2. injection H2 as <-.
  apply bind_inr in Hload as ([] & s3 & Hcom & Hload).
  apply bind_inr in Hload as ([] & s4 & Hlf & Hload).
  apply bind_inr in Hload as ([] & s5 & Hrf & Hload).
  apply bind_inr in Hload as ([] & s6 & Hlh & Hrh).
  apply load_slot_inr in Hlf as (lf & Hlf & Hlf0).
  apply load_slot_inr in Hrf as (rf & Hrf & Hrf0).
  apply load_slot_inr in Hlh as (lh & Hlh & Hlh0).
  apply load_slot_inr in Hrh as (rh & Hrh & Hrh0).
  unfold set_left_foot in Hlf. unfold set_right_foot in Hrf.
  unfold set_left_hand in Hlh. unfold set_right_hand in Hrh.
  injection Hlf as <-. injection Hrf as <-.
  injection Hlh as <-. injection Hrh as <-. simpl.
  split; [| auto].
  intros Hnone. rewrite Hnone in Hcom.
  unfold mret, M_ret, ret in Hcom. now injection Hcom as <-.
Qed.

Lemma saved_document_lookups s :
  saved_document s !! "com"
    = Some (JObj {["pos" := Json.of_vec3 (p (com s))]}) /\
  saved_document s !! "left_foot" = dict_repr <$> left_foot s /\
  saved_document s !! "right_foot" = dict_repr <$> right_foot s /\
  saved_document s !! "left_hand" = dict_repr <$> left_hand s /\
  saved_document s !! "right_hand" = dict_repr <$> right_hand s.
Proof.
  repeat split.
  - rewrite !save_contact_lookup_ne by done. apply lookup_insert_eq.
  - rewrite !save_contact_lookup_ne by done.
    apply save_contact_lookup_eq.
    now rewrite lookup_insert_ne, lookup_empty.
  - rewrite !save_contact_lookup_ne by done.
    apply save_contact_lookup_eq.
    rewrite !save_contact_lookup_ne by done.
    now rewrite lookup_insert_ne, lookup_empty.
  - rewrite !save_contact_lookup_ne by done.
    apply save_contact_lookup_eq.
    rewrite !save_contact_lookup_ne by done.
    now rewrite lookup_insert_ne, lookup_empty.
  - apply save_contact_lookup_eq.
    rewrite !save_contact_lookup_ne by done.
    now rewrite lookup_insert_ne, lookup_empty.
Qed.

(** X10.  [save] does not modify the stance.  It raises [IOError], and
    writes nothing, exactly when the file cannot be opened for writing;
    otherwise it replaces the file under [path] by an object that has a
    [com] entry and an entry for exactly the engaged roles, and touches no
    other file. *)
Theorem save_effects :
  forall (fs : files) (path : string) (s : Stance),
    (open_w path = inl IOError /\ save fs path s = (s, inl IOError)) \/
    (open_w path = inr tt /\
     exists (fs' : files) (d : gmap string json),
       save fs path s = (s, inr fs') /\
       fs' !! path = Some (JObj d) /\
       (forall path' : string, path' <> path -> fs' !! path' = fs !! path') /\
       is_Some (d !! "com") /\
       (is_Some (d !! "left_foot") <-> is_Some (left_foot s)) /\
       (is_Some (d !! "right_foot") <-> is_Some (right_foot s)) /\
       (is_Some (d !! "left_hand") <-> is_Some (left_hand s)) /\
       (is_Some (d !! "right_hand") <-> is_Some (right_hand s))).
Proof.
  intros fs path s. rewrite save_cases.
  destruct (open_w path) as [e | []] eqn:Hopen.
  - left. unfold open_w in Hopen.
    destruct (String.eqb path ""), (writable path);
      try discriminate Hopen; injection Hopen as <-; auto.
  - right. split; [reflexivity |].
    destruct (saved_document_lookups s) as (Hcom & Hlf & Hrf & Hlh & Hrh).
    exists (<[path := JObj (saved_document s)]> fs), (saved_document s).
    split; [reflexivity |].
    split; [apply lookup_insert_eq |].
    split; [intros path' Hne; now apply lookup_insert_ne |].
    rewrite Hcom, Hlf, Hrf, Hlh, Hrh, !fmap_is_Some.
    split; [eauto | tauto].
Qed.

(** X11.  The file that [save] writes depends only on the position of the
    centre of mass and on the four slots: the mass, the joint targets and
    the cached polygon are not persisted. *)
Theorem save_persists_position_and_slots :
  forall (fs : files) (path : string) (s1 s2 : Stance),
    p (com s1) = p (com s2) ->
    left_foot s1 = left_foot s2 -> left_hand s1 = left_hand s2 ->
    right_foot s1 = right_foot s2 -> right_hand s1 = right_hand s2 ->
    snd (save fs path s1) = snd (save fs path s2).
Proof.
  intros fs path s1 s2 Hp Hlf Hlh Hrf Hrh.
  rewrite !save_cases. simpl. now rewrite Hp, Hlf, Hlh, Hrf, Hrh.
Qed.

(** X12.  When [save] succeeds, [from_json] on the file it wrote builds a
    stance with the contacts and the position of the centre of mass of the
    saved stance, no joint target and no cached polygon, so that
    [dist_to_sep_edge] raises [TypeError] on it until the polygon is
    computed again. *)
Theorem from_json_after_save :
  forall (fs fs' : files) (path : string) (s s1 : Stance),
    save fs path s = (s1, inr fs') ->
    exists s' : Stance,
      from_json fs' path = (s', inr tt) /\
      p (com s') = p (com s) /\
      contacts s' = contacts s /\
      dof_tasks s' = [] /\
      sep_hrep s' = None /\
      forall q : vec3, dist_to_sep_edge q s' = (s', inl TypeError).
Proof.
  intros fs fs' path s s1 Hsave.
  rewrite save_cases in Hsave.
  destruct (open_w path) as [e | []]; [discriminate Hsave |].
  injection Hsave as _ <-.
  destruct (saved_document_lookups s) as (Hcom & Hlf & Hrf & Hlh & Hrh).
  eexists. split.
  - unfold from_json.
    eapply load_saved with (v := p (com s)) (lf := left_foot s)
      (rf := right_foot s) (lh := left_hand s) (rh := right_hand s);
      [apply lookup_insert_eq | eassumption ..].
  - simpl. repeat split.
Qed.

(** ** Failure and recomputation of the equilibrium polygon *)

Lemma compute_static_equilibrium_polygon_cases method s :
  compute_static_equilibrium_polygon method s =
    match ContactSet_compute_static_equilibrium_polygon (contacts s) method with
    | inl e => (s, inl e)
    | inr vs =>
        match compute_polytope_halfspaces vs with
        | inl e => (s, inl e)
        | inr (A, b) =>
            (mkStance (com s) (dof_tasks s) (left_foot s) (left_hand s)
               (right_foot s) (right_hand s)
               (Some (A, b)) (Some (map norm A)) (Some vs), inr vs)
        end
    end.
Proof.
  unfold compute_static_equilibrium_polygon. run_method.
  destruct (ContactSet_compute_static_equilibrium_polygon (contacts s) method)
    as [e | vs]; [reflexivity |].
  now destruct (compute_polytope_halfspaces vs) as [e | [A b]].
Qed.

(** X13.  When [compute_static_equilibrium_polygon] raises, the exception is
    the one that the parent's projection or the halfspace conversion
    raised, and the stance, the previously cached polygon included, is as
    before. *)
Theorem compute_static_equilibrium_polygon_failure :
  forall (method : string) (s s' : Stance) (e : exn),
    compute_static_equilibrium_polygon method s = (s', inl e) ->
    s' = s /\
    (ContactSet_compute_static_equilibrium_polygon (contacts s) method = inl e
     \/ exists vs,
          ContactSet_compute_static_equilibrium_polygon (contacts s) method
            = inr vs /\
          compute_polytope_halfspaces vs = inl e).
Proof.
  intros method s s' e.
  rewrite compute_static_equilibrium_polygon_cases.
  destruct (ContactSet_compute_static_equilibrium_polygon (contacts s) method)
    as [e0 | vs].
  - intros H. injection H as <- <-. auto.
  - destruct (compute_polytope_halfspaces vs) as [e0 | [A b]] eqn:Hh.
    + intros H. injection H as <- <-. split; [reflexivity |]. right. eauto.
    + discriminate.
Qed.

(** X14.  Computing the polygon again right after a computation changes
    nothing: the second call returns what the first returned and leaves the
    stance in the state the first call left. *)
Theorem compute_static_equilibrium_polygon_idempotent :
  forall (method : string) (s : Stance),
    compute_static_equilibrium_polygon method
      (fst (compute_static_equilibrium_polygon method s))
    = compute_static_equilibrium_polygon method s.
Proof.
  intros method s.
  rewrite (compute_static_equilibrium_polygon_cases method s).
  destruct (ContactSet_compute_static_equilibrium_polygon (contacts s) method)
    as [e0 | vs] eqn:Hp; simpl.
  - now rewrite compute_static_equilibrium_polygon_cases, Hp.
  - destruct (compute_polytope_halfspaces vs) as [e0 | [A b]] eqn:Hh; simpl.
    + now rewrite compute_static_equilibrium_polygon_cases, Hp, Hh.
    + rewrite compute_static_equilibrium_polygon_cases.
      change (contacts _) with (contacts s). now rewrite Hp, Hh.
Qed.

(** ** More on the pendular cone *)

(** X15.  With an empty list of sample points [compute_pendular_accel_cone]
    always raises: [ValueError] from the stacking when the wrench cone is
    available, the wrench cone's own exception otherwise. *)
Theorem compute_pendular_accel_cone_no_sample :
  forall (s : Stance) (zdd_max : option R) (reduced : bool),
    exists e : exn,
      compute_pendular_accel_cone (Some []) zdd_max reduced s = (s, inl e) /\
      (e = ValueError \/
       compute_wrench_inequalities (contacts s) (0, 0, 0) = inl e).
Proof.
  intros s zdd_max reduced.
  unfold compute_pendular_accel_cone. run_method.
  destruct (compute_wrench_inequalities (contacts s) (0, 0, 0)) as [e | CWC_O].
  - exists e. auto.
  - exists ValueError. auto.
Qed.

(** X16.  Only [QhullError] is translated: any other exception of
    [compute_polygon_hull] reaches the caller as it is. *)
Theorem compute_pendular_accel_cone_other_failure :
  forall (s : Stance) (com_vertices : option (list vec3)) (zdd_max : option R)
         (reduced : bool) (vs : list vec3) (CWC_O : list (vec3 * vec3))
         (e : exn),
    vs = match com_vertices with
         | None => [p (com s)]
         | Some vs => vs
         end ->
    vs <> [] ->
    compute_wrench_inequalities (contacts s) (0, 0, 0) = inr CWC_O ->
    compute_polygon_hull (fst (reduced_halfspaces CWC_O vs))
                         (snd (reduced_halfspaces CWC_O vs)) = inl e ->
    e <> QhullError ->
    compute_pendular_accel_cone com_vertices zdd_max reduced s = (s, inl e).
Proof.
  intros s com_vertices zdd_max reduced vs CWC_O e Hvs Hne HCWC Hhull He.
  rewrite (compute_pendular_accel_cone_run _ _ _ _ _ _ Hvs Hne HCWC), Hhull.
  now destruct e.
Qed.

(** X17.  In reduced mode [zdd_max] plays no role. *)
Theorem compute_pendular_accel_cone_reduced_ignores_zdd :
  forall (s : Stance) (com_vertices : option (list vec3))
         (zdd_max zdd_max' : option R),
    compute_pendular_accel_cone com_vertices zdd_max true s
    = compute_pendular_accel_cone com_vertices zdd_max' true s.
Proof.
  intros s com_vertices zdd_max zdd_max'.
  unfold compute_pendular_accel_cone, except_QhullError.
  destruct com_vertices as [vs0|]; run_method.
  all: destruct (compute_wrench_inequalities (contacts s) (0, 0, 0))
         as [e | CWC_O]; [reflexivity |].
  1: destruct vs0 as [|v vs']; [reflexivity |].
  all: simpl.
  all: match goal with
       | |- context [compute_polygon_hull ?B ?c] =>
           destruct (compute_polygon_hull B c) as [[] | hull]
       end; reflexivity.
Qed.

(** X18.  Away from free fall the expansion loses nothing: when
    [g + zdd <> 0], two reduced hulls with the same expansion are equal, and
    the expansion has one vertex more than the hull. *)
Theorem expand_reduced_pendular_cone_injective :
  forall (h1 h2 : list vec2) (zdd_max : option R),
    - idx2 gravity + match zdd_max with
                     | Some zdd => zdd
                     | None => - idx2 gravity
                     end <> 0 ->
    length (expand_reduced_pendular_cone h1 zdd_max) = S (length h1) /\
    (expand_reduced_pendular_cone h1 zdd_max
       = expand_reduced_pendular_cone h2 zdd_max -> h1 = h2).
Proof.
  intros h1 h2 zdd_max Hnz. unfold expand_reduced_pendular_cone.
  split; [simpl; now rewrite length_map |].
  set (g := - idx2 gravity) in *.
  set (zdd := match zdd_max with Some zdd_max0 => zdd_max0 | None => g end).
  assert (Hk : g + zdd <> 0) by (subst zdd; now destruct zdd_max).
  clearbody zdd. clear Hnz.
  intros H. injection H as H. revert h2 H.
  induction h1 as [|[a b] h1 IH]; intros [|[a' b'] h2] H; simpl in H;
    try discriminate; [reflexivity |].
  injection H as Ha Hb H.
  apply Rmult_eq_reg_r in Ha; [| exact Hk].
  apply Rmult_eq_reg_r in Hb; [| exact Hk].
  subst. f_equal. now apply IH.
Qed.

(** X19.  At [zdd_max = -g] the cone degenerates: every vertex built from
    the reduced hull is the point [(0, 0, -g)]. *)
Theorem expand_reduced_pendular_cone_free_fall :
  forall (hull : list vec2) (v : vec3),
    In v (tl (expand_reduced_pendular_cone hull (Some (idx2 gravity)))) ->
    v = (0, 0, idx2 gravity).
Proof.
  intros hull v. unfold expand_reduced_pendular_cone. simpl.
  rewrite in_map_iff. intros ([a b] & <- & _).
  replace (- idx2 gravity + idx2 gravity) with 0 by lra.
  now rewrite !Rmult_0_r.
Qed.


Lemma reduced_halfspaces_cons CWC_O v vs :
  reduced_halfspaces CWC_O (v :: vs) =
    (fst (reduced_halfspaces CWC_O [v]) ++ fst (reduced_halfspaces CWC_O vs),
     snd (reduced_halfspaces CWC_O [v]) ++ snd (reduced_halfspaces CWC_O vs)).
Proof.
  unfold reduced_halfspaces; simpl.
  now rewrite !app_nil_r, !map_app.
Qed.

(** X20.  For any list of sample points, a point lies in the polygon of the
    stacked system exactly when it lies in the polygon of every sample
    point taken alone; the order of the samples and repetitions among them
    do not matter. *)
Theorem reduced_polygon_all_samples :
  forall (CWC_O : list (vec3 * vec3)) (vs : list vec3) (pt : vec2),
    in_polygon (reduced_halfspaces CWC_O vs) pt <->
    forall v : vec3, In v vs -> in_polygon (reduced_halfspaces CWC_O [v]) pt.
Proof.
  intros CWC_O vs pt. induction vs as [|v vs IH].
  - split; [intros _ v [] |]. intros _. constructor.
  - rewrite reduced_halfspaces_cons.
    rewrite in_polygon_app by apply reduced_halfspaces_length.
    rewrite <- !surjective_pairing, IH. split.
    + intros [Hv Hvs] w [<- | Hw]; auto.
    + intros H. split; [apply H; now left |].
      intros w Hw. apply H. now right.
Qed.

(** X21.  When gravity is vertical and not null, the right-hand side
    [sigma] of the reduced system is minus the third column of [B]: the
    system does not depend on the magnitude of gravity. *)
Theorem reduced_halfspaces_vertical_gravity :
  forall (CWC_O : list (vec3 * vec3)) (vs : list vec3) (gz : R),
    gravity = (0, 0, gz) ->
    gz <> 0 ->
    snd (reduced_halfspaces CWC_O vs) =
      map (fun r => - idx2 r)
          (concat (map (fun v => fst (pendular_system CWC_O v)) vs)).
Proof.
  intros CWC_O vs gz Hg Hgz. unfold reduced_halfspaces; simpl.
  induction vs as [|v vs IH]; simpl; [reflexivity |].
  rewrite !map_app, IH. f_equal.
  rewrite !map_map. apply map_ext. intros [a m].
  rewrite Hg. simpl.
  destruct (add3 a (cross m v)) as [[r1 r2] r3]. simpl.
  field. exact Hgz.
Qed.

Lemma matmul_inr_rows (r : list R) (B G BG : matrix) :
  Mat.matmul (r :: B) G = inr BG -> length G = length r.
Proof.
  unfold Mat.matmul. cbn [forallb].
  destruct (Nat.eqb (length r) (length G)) eqn:Hlen; [| discriminate].
  intros _. apply Nat.eqb_eq in Hlen. congruence.
Qed.

Lemma matmul_bad_rows (r : list R) (B G : matrix) :
  length G <> length r -> Mat.matmul (r :: B) G = inl ValueError.
Proof.
  intros Hne. unfold Mat.matmul. cbn [forallb].
  destruct (Nat.eqb (length r) (length G)) eqn:Hlen; [| reflexivity].
  apply Nat.eqb_eq in Hlen. congruence.
Qed.

(** What [compute_zmp_support_area] builds when the product [dot(B, G)]
    is defined: the grasp matrix has six rows. *)
Lemma zmp_projection_problem_inr mass plane s pb :
  zmp_projection_problem mass plane s = (s, inr pb) ->
  exists (g1 g2 : list R) (G' BG : matrix),
    compute_grasp_matrix (contacts s) (0, 0, 0) = inr (g1 :: g2 :: G') /\
    length G' = 4%nat /\
    pb = {| proj := (Mat.scale ((idx2 plane - z (com s)) / (mass * 9.81))
                       [g1; g2],
                     [x (com s); y (com s)]);
            ineq := (Mat.block_diag (map wrench_inequalities (contacts s)),
                     Mat.zeros
                       (length (Mat.block_diag
                                  (map wrench_inequalities (contacts s)))));
            eq := (Mat.scale (1 / (mass * 9.81)) BG,
                   let '(px, py, pz) := p (com s) in [px; py; pz; 0]) |}.
Proof.
  unfold zmp_projection_problem. run_method.
  destruct (compute_grasp_matrix (contacts s) (0, 0, 0)) as [e | G]; simpl;
    [intros H; discriminate H |].
  destruct (p (com s)) as [[px py] pz] eqn:Hp.
  match goal with
  | |- context [Mat.matmul ?B G] =>
      destruct (Mat.matmul B G) as [e | BG] eqn:Hmul
  end; [intros H; discriminate H |].
  apply matmul_inr_rows in Hmul. simpl in Hmul.
  destruct G as [|g1 [|g2 G']]; try discriminate Hmul.
  intros H. injection H as <-.
  exists g1, g2, G', BG. split; [reflexivity |].
  split; [simpl in Hmul; lia | reflexivity].
Qed.

(** X22.  When the plane is at the height of the centre of mass, the ZMP
    support area degenerates: every point of the projected region is the
    horizontal position of the centre of mass. *)
Theorem zmp_support_area_at_com_height :
  forall (s : Stance) (plane : vec3) (mass : R) (pb : projection_problem)
         (pt : list R),
    zmp_projection_problem mass plane s = (s, inr pb) ->
    idx2 plane = z (com s) ->
    in_projection pb pt ->
    pt = [x (com s); y (com s)].
Proof.
  intros s plane mass pb pt Hpb Hz (w & _ & _ & _ & Hpt).
  apply zmp_projection_problem_inr in Hpb
    as (g1 & g2 & G' & BG & _ & _ & ->).
  simpl in Hpt. rewrite !dot_vscale_l in Hpt.
  rewrite Hz in Hpt. subst pt.
  f_equal; [| f_equal]; unfold Rdiv; rewrite Rminus_diag; lra.
Qed.

(** X23.  A grasp matrix that does not have six rows makes
    [compute_zmp_support_area] raise [ValueError] in the product
    [dot(B, G)], before any projection. *)
Theorem compute_zmp_support_area_bad_grasp_matrix :
  forall (s : Stance) (plane : vec3) (method : string) (G : matrix),
    compute_grasp_matrix (contacts s) (0, 0, 0) = inr G ->
    length G <> 6%nat ->
    compute_zmp_support_area plane method s = (s, inl ValueError).
Proof.
  intros s plane method G HG Hlen.
  unfold compute_zmp_support_area, zmp_projection_problem. run_method.
  rewrite HG.
  destruct (p (com s)) as [[px py] pz] eqn:Hp.
  now rewrite matmul_bad_rows.
Qed.


(** ** The record of a contact *)

(** X24.  [cfd] reads the four keys [shape], [friction], [pos] and [rpy]
    only: any other entry of the record is ignored. *)
Theorem cfd_ignores_other_keys :
  forall (d : gmap string json) (key : string) (v : json),
    key <> "shape" -> key <> "friction" -> key <> "pos" -> key <> "rpy" ->
    cfd (JObj (<[key := v]> d)) = cfd (JObj d).
Proof.
  intros d key v H1 H2 H3 H4. unfold cfd, Json.getitem.
  now rewrite !lookup_insert_ne by assumption.
Qed.

(** X25.  When one of the four keys is missing from the record, [cfd] raises
    [KeyError] for a missing key, without building a contact. *)
Theorem cfd_missing_key :
  forall d : gmap string json,
    d !! "shape" = None \/ d !! "friction" = None \/
    d !! "pos" = None \/ d !! "rpy" = None ->
    exists key : string,
      cfd (JObj d) = inl (KeyError key) /\ d !! key = None.
Proof.
  intros d H. unfold cfd, Json.getitem, mbind, result_bind.
  destruct (d !! "shape") eqn:Hs; [| eauto].
  destruct (d !! "friction") eqn:Hf; [| eauto].
  destruct (d !! "pos") eqn:Hp; [| eauto].
  destruct (d !! "rpy") eqn:Hr; [| eauto].
  destruct H as [H | [H | [H | H]]]; discriminate H.
Qed.

(** ** Rescaling the half-space form *)

Lemma norm_scale (k : R) (a : vec2) :
  0 <= k -> norm (k * fst a, k * snd a) = k * norm a.
Proof.
  intros Hk. destruct a as [a1 a2]. unfold norm, dot2; simpl.
  replace (k * a1 * (k * a1) + k * a2 * (k * a2))
    with (k * k * (a1 * a1 + a2 * a2)) by ring.
  rewrite sqrt_mult by nra.
  now rewrite sqrt_square.
Qed.

Lemma scaled_rows (k : R) (pt : vec2) : forall (A : list vec2) (b : list R),
  0 < k ->
  Forall (fun a => a <> (0, 0)) A ->
  map (fun '(a, bi) => (bi - dot2 a pt) / norm a)
      (combine (map (fun a => (k * fst a, k * snd a)) A) (map (Rmult k) b))
  = map (fun '(a, bi) => (bi - dot2 a pt) / norm a) (combine A b).
Proof.
  intros A b Hk HA. revert b.
  induction HA as [|a A Ha _ IH]; intros [|bi b]; simpl; auto.
  rewrite IH. f_equal.
  rewrite norm_scale by lra.
  pose proof (norm_pos a Ha) as Hn.
  unfold dot2; simpl. field. split; lra.
Qed.

(** X26.  The distance does not depend on the scale of the half-space form:
    multiplying every row of [A] and every entry of [b] by a factor [k > 0]
    (the row norms being those of the new rows) gives the same result of
    [dist_to_sep_edge], provided that [A] has no null row. *)
Theorem dist_to_sep_edge_scale_invariant :
  forall (s1 s2 : Stance) (A : list vec2) (b : list R) (k : R) (q : vec3),
    0 < k ->
    Forall (fun a => a <> (0, 0)) A ->
    length A = length b ->
    sep_hrep s1 = Some (A, b) ->
    sep_norm s1 = Some (map norm A) ->
    sep_hrep s2 = Some (map (fun a => (k * fst a, k * snd a)) A,
                        map (Rmult k) b) ->
    sep_norm s2 = Some (map norm (map (fun a => (k * fst a, k * snd a)) A)) ->
    snd (dist_to_sep_edge q s2) = snd (dist_to_sep_edge q s1).
Proof.
  intros s1 s2 A b k q Hk HA Hlen Hh1 Hn1 Hh2 Hn2.
  rewrite (dist_to_sep_edge_rows s1 q A b Hh1 Hn1 Hlen).
  rewrite (dist_to_sep_edge_rows s2 q _ _ Hh2 Hn2)
    by (rewrite !length_map; exact Hlen).
  simpl. now rewrite scaled_rows.
Qed.

End StanceModel.

(** ** The properties on the worked example *)

(** C5 as stated fails: on a freshly constructed stance [dist_to_sep_edge]
    does not raise anything that stands for the [StaleState] condition. *)
Lemma dist_to_sep_edge_fresh_not_StaleState :
  ~ exists e : exn,
      snd (dist_to_sep_edge (0, 0, 1) standing) = inl e /\
      condition_of e = Some StaleState.
Proof.
  intros (e & He & Hc).
  unfold dist_to_sep_edge in He. simpl in He.
  injection He as <-. discriminate Hc.
Qed.

Lemma dist_to_sep_edge_stale_witness :
  sep_hrep standing = None /\
  dist_to_sep_edge (0, 0, 1) standing = (standing, inl TypeError) /\
  condition_of TypeError = None.
Proof.
  split; [reflexivity |].
  apply (dist_to_sep_edge_stale standing (0, 0, 1)). reflexivity.
Defined.

Lemma save_load_roundtrip_witness :
  exists fs' : files,
    save example_writable ∅ "stance.json" standing = (standing, inr fs') /\
    exists s' : Stance,
      load 0 fs' "stance.json" floating = (s', inr tt) /\
      p (com s') = p (com standing) /\
      left_foot s' = left_foot standing /\
      right_foot s' = right_foot standing /\
      left_hand s' = left_hand standing /\
      right_hand s' = right_hand standing /\
      sep_hrep s' = sep_hrep floating /\
      sep_norm s' = sep_norm floating /\
      sep_vertices s' = sep_vertices floating.
Proof.
  eexists. split; [unfold save, open_w; run_method; reflexivity |].
  refine (proj2 (save_load_roundtrip 0 example_writable standing floating
                   standing ∅ _ "stance.json" _)).
  unfold save, open_w; run_method; reflexivity.
Defined.

Lemma dist_to_sep_edge_signed_distance_witness :
  compute_static_equilibrium_polygon example_sep_projection
    example_halfspaces "hull" standing
    = (standing_with_polygon, inr square_vertices) /\
  exists d : R,
    dist_to_sep_edge (0.5, 0, 1) standing_with_polygon
      = (standing_with_polygon, inr d) /\
    signed_distance square_hrep (xy (0.5, 0, 1)) = Some d /\
    (strictly_inside square_hrep (xy (0.5, 0, 1)) -> 0 < d) /\
    (outside square_hrep (xy (0.5, 0, 1)) -> d < 0) /\
    (on_boundary square_hrep (xy (0.5, 0, 1)) -> d = 0).
Proof.
  split; [reflexivity |].
  apply (dist_to_sep_edge_signed_distance example_sep_projection
           example_halfspaces "hull" standing standing_with_polygon
           square_vertices (fst square_hrep) (snd square_hrep) (0.5, 0, 1)).
  - reflexivity.
  - reflexivity.
  - reflexivity.
  - discriminate.
  - repeat constructor; intros H; injection H; lra.
Defined.

Lemma compute_static_equilibrium_polygon_no_contact_witness :
  left_foot floating = None /\ left_hand floating = None /\
  right_foot floating = None /\ right_hand floating = None /\
  compute_static_equilibrium_polygon example_sep_projection
    example_halfspaces "hull" floating
    = (floating, inl (Raised InsufficientContacts)).
Proof.
  repeat (split; [reflexivity |]).
  apply (compute_static_equilibrium_polygon_no_contact example_sep_projection
           example_halfspaces floating "hull"); reflexivity.
Defined.

Lemma compute_pendular_accel_cone_vertices_witness :
  example_wrench_cone (contacts standing) (0, 0, 0)
    = inr [((1, 0, -1), (0, 0, 0)); ((0, 1, -1), (0, 0, 0));
           ((-1, 0, -1), (0, 0, 0)); ((0, -1, -1), (0, 0, 0))] /\
  compute_pendular_accel_cone example_gravity example_wrench_cone example_hull
    None (Some 2) false standing
    = (standing,
       inr (Cone3D
              (example_gravity ::
               map (fun '(a, b) =>
                      (a * (- idx2 example_gravity + 2),
                       b * (- idx2 example_gravity + 2), 2))
                   square_vertices))) /\
  compute_pendular_accel_cone example_gravity example_wrench_cone example_hull
    None (Some 2) true standing
    = (standing, inr (Reduced2D square_vertices)).
Proof.
  split; [reflexivity |].
  apply (compute_pendular_accel_cone_vertices example_gravity
           example_wrench_cone example_hull standing None (Some 2)
           [(0, 0, 1)]
           [((1, 0, -1), (0, 0, 0)); ((0, 1, -1), (0, 0, 0));
            ((-1, 0, -1), (0, 0, 0)); ((0, -1, -1), (0, 0, 0))]
           square_vertices).
  - reflexivity.
  - discriminate.
  - reflexivity.
  - reflexivity.
Defined.

Lemma compute_pendular_accel_cone_hull_failure_witness :
  failing_hull
    (fst (reduced_halfspaces example_gravity
            [((1, 0, -1), (0, 0, 0)); ((0, 1, -1), (0, 0, 0))] [(0, 0, 1)]))
    (snd (reduced_halfspaces example_gravity
            [((1, 0, -1), (0, 0, 0)); ((0, 1, -1), (0, 0, 0))] [(0, 0, 1)]))
    = inl QhullError /\
  exists e : exn,
    compute_pendular_accel_cone example_gravity
      (fun _ _ => inr [((1, 0, -1), (0, 0, 0)); ((0, 1, -1), (0, 0, 0))])
      failing_hull (Some [(0, 0, 1)]) None false standing
      = (standing, inl e) /\
    e = PyException "Cannot compute 2D polar for acceleration cone" /\
    condition_of e = Some ProjectionFailed.
Proof.
  split; [reflexivity |].
  apply (compute_pendular_accel_cone_hull_failure example_gravity
           (fun _ _ => inr [((1, 0, -1), (0, 0, 0)); ((0, 1, -1), (0, 0, 0))])
           failing_hull standing (Some [(0, 0, 1)]) None false [(0, 0, 1)]
           [((1, 0, -1), (0, 0, 0)); ((0, 1, -1), (0, 0, 0))]).
  - reflexivity.
  - discriminate.
  - reflexivity.
  - reflexivity.
Defined.

Lemma zmp_support_area_mass_independent_witness :
  0 < 42 /\ 0 < 1 /\
  exists pb1 : projection_problem,
    zmp_projection_problem example_grasp_matrix example_wrench_inequalities
      42 (0, 0, 0) standing = (standing, inr pb1) /\
    exists pb2 : projection_problem,
      zmp_projection_problem example_grasp_matrix example_wrench_inequalities
        1 (0, 0, 0) standing = (standing, inr pb2) /\
      forall y : list R, in_projection pb1 y <-> in_projection pb2 y.
Proof.
  split; [lra |]. split; [lra |].
  eexists. split; [unfold zmp_projection_problem; run_method; reflexivity |].
  apply (zmp_support_area_mass_independent example_grasp_matrix
           example_wrench_inequalities standing (0, 0, 0) 42 1).
  - lra.
  - lra.
  - reflexivity.
Defined.

(** ** Evaluating the model *)

Example contacts_order (a b c d : Contact) :
  contacts (Stance_init (mkPointMass (0, 0, 1) 50)
              (Some a) (Some b) (Some c) (Some d))
  = [a; c; b; d].
Proof. reflexivity. Qed.

Lemma nb_contacts_length (s : Stance) : nb_contacts s = length (contacts s).
Proof.
  unfold nb_contacts, contacts.
  now destruct (left_foot s), (left_hand s), (right_foot s), (right_hand s).
Qed.

Example block_diag_two :
  Mat.block_diag [[[1; 2]]; [[3]; [4]]] = [[1; 2; 0]; [0; 0; 3]; [0; 0; 4]].
Proof. reflexivity. Qed.

Example broadcast_mismatch :
  broadcast Rminus [1; 2; 3] [1; 2] = inl ValueError.
Proof. reflexivity. Qed.

Example expand_example :
  expand_reduced_pendular_cone example_gravity [(1, 2)] None
  = [example_gravity;
     (1 * (- idx2 example_gravity + - idx2 example_gravity),
      2 * (- idx2 example_gravity + - idx2 example_gravity),
      - idx2 example_gravity)].
Proof. reflexivity. Qed.

Example empty_com_vertices :
  compute_pendular_accel_cone example_gravity example_wrench_cone example_hull
    (Some []) None false standing = (standing, inl ValueError).
Proof. reflexivity. Qed.

Lemma norm_unit_x : norm (1, 0) = 1.
Proof.
  unfold norm, dot2; simpl.
  replace (1 * 1 + 0 * 0) with 1 by lra. apply sqrt_1.
Qed.

(** Half-way between the centre and the right edge of the square, the
    distance to the edges is one half. *)
Example dist_to_sep_edge_square :
  dist_to_sep_edge (0.5, 0, 1) standing_with_polygon
  = (standing_with_polygon, inr 0.5).
Proof.
  rewrite (dist_to_sep_edge_rows standing_with_polygon (0.5, 0, 1)
             (fst square_hrep) (snd square_hrep)) by reflexivity.
  f_equal. simpl. f_equal.
  unfold norm, dot2; simpl.
  replace (1 * 1 + 0 * 0) with 1 by lra.
  replace (0 * 0 + 1 * 1) with 1 by lra.
  replace (-1 * -1 + 0 * 0) with 1 by lra.
  replace (0 * 0 + -1 * -1) with 1 by lra.
  rewrite sqrt_1.
  unfold Rmin.
  repeat (destruct (Rle_dec _ _)); lra.
Qed.

(** ** The further properties on the worked example *)

Lemma load_missing_file_witness :
  example_files !! "nowhere.json" = None /\
  load 0 example_files "nowhere.json" standing = (standing, inl IOError).
Proof.
  split; [reflexivity |].
  apply load_missing_file. reflexivity.
Defined.

Lemma load_partial_update_witness :
  left_foot standing = Some flat_contact /\
  load 0 example_files "stance.json" standing =
    (mkStance (com standing) (dof_tasks standing) None (left_hand standing)
       (right_foot standing) (right_hand standing) (sep_hrep standing)
       (sep_norm standing) (sep_vertices standing),
     inl (KeyError "shape")).
Proof.
  split; [reflexivity |].
  apply (load_partial_update 0 example_files "stance.json"
           {["right_foot" := JObj ∅]} ∅ standing); reflexivity.
Defined.

Lemma load_absent_entries_witness :
  load 0 {["empty.json" := JObj ∅]} "empty.json" standing
    = (floating, inr tt) /\
  (com floating = com standing) /\
  left_foot floating = None.
Proof.
  assert (Hload : load 0 {["empty.json" := JObj ∅]} "empty.json" standing
                  = (floating, inr tt)) by reflexivity.
  split; [exact Hload |].
  assert (Hfs : ({["empty.json" := JObj ∅]} : files) !! "empty.json"
                = Some (JObj ∅)) by reflexivity.
  destruct (load_absent_entries 0 {["empty.json" := JObj ∅]} "empty.json"
              ∅ standing floating Hfs Hload) as (Hcom & Hlf & _).
  split; [apply Hcom | apply Hlf]; reflexivity.
Defined.

Lemma save_persists_position_and_slots_witness :
  sep_hrep standing <> sep_hrep standing_with_polygon /\
  snd (save example_writable ∅ "stance.json" standing)
  = snd (save example_writable ∅ "stance.json" standing_with_polygon).
Proof.
  split; [discriminate |].
  apply save_persists_position_and_slots; reflexivity.
Defined.

Lemma compute_static_equilibrium_polygon_failure_witness :
  compute_static_equilibrium_polygon example_sep_projection
    failing_halfspaces "hull" standing_with_polygon
    = (standing_with_polygon, inl ValueError) /\
  standing_with_polygon = standing_with_polygon /\
  (ContactSet_compute_static_equilibrium_polygon example_sep_projection
     (contacts standing_with_polygon) "hull" = inl ValueError \/
   exists vs,
     ContactSet_compute_static_equilibrium_polygon example_sep_projection
       (contacts standing_with_polygon) "hull" = inr vs /\
     failing_halfspaces vs = inl ValueError).
Proof.
  split; [reflexivity |].
  apply (compute_static_equilibrium_polygon_failure example_sep_projection
           failing_halfspaces "hull").
  reflexivity.
Defined.

Lemma compute_pendular_accel_cone_other_failure_witness :
  ValueError <> QhullError /\
  compute_pendular_accel_cone example_gravity example_wrench_cone
    crashing_hull None None false standing = (standing, inl ValueError).
Proof.
  split; [discriminate |].
  eapply (compute_pendular_accel_cone_other_failure example_gravity
            example_wrench_cone crashing_hull standing None None false
            [(0, 0, 1)]).
  - reflexivity.
  - discriminate.
  - reflexivity.
  - reflexivity.
  - discriminate.
Defined.

Lemma expand_reduced_pendular_cone_injective_witness :
  length (expand_reduced_pendular_cone example_gravity square_vertices None)
    = 5%nat /\
  (expand_reduced_pendular_cone example_gravity square_vertices None
   = expand_reduced_pendular_cone example_gravity square_vertices None ->
   square_vertices = square_vertices).
Proof.
  apply (expand_reduced_pendular_cone_injective example_gravity
           square_vertices square_vertices None).
  simpl. lra.
Defined.

Lemma expand_reduced_pendular_cone_free_fall_witness :
  (1 * (- idx2 example_gravity + idx2 example_gravity),
   2 * (- idx2 example_gravity + idx2 example_gravity),
   idx2 example_gravity) = (0, 0, idx2 example_gravity).
Proof.
  apply (expand_reduced_pendular_cone_free_fall example_gravity [(1, 2)]).
  left. reflexivity.
Defined.

Lemma reduced_halfspaces_vertical_gravity_witness :
  snd (reduced_halfspaces example_gravity
         [((1, 0, -1), (0, 0, 0)); ((0, 1, -1), (0, 0, 0))] [(0, 0, 1)])
  = map (fun r => - idx2 r)
        (concat (map (fun v => fst (pendular_system example_gravity
                   [((1, 0, -1), (0, 0, 0)); ((0, 1, -1), (0, 0, 0))] v))
                   [(0, 0, 1)])).
Proof.
  apply (reduced_halfspaces_vertical_gravity example_gravity _ _ (-9.81)).
  - reflexivity.
  - lra.
Defined.

Lemma compute_zmp_support_area_bad_grasp_matrix_witness :
  short_grasp_matrix (contacts standing) (0, 0, 0) = inr (Mat.eye 3) /\
  compute_zmp_support_area short_grasp_matrix example_wrench_inequalities
    (fun _ _ => inr square_vertices) (0, 0, 0) "bretl" standing
    = (standing, inl ValueError).
Proof.
  split; [reflexivity |].
  eapply compute_zmp_support_area_bad_grasp_matrix.
  - reflexivity.
  - simpl. lia.
Defined.

Lemma cfd_ignores_other_keys_witness :
  cfd (JObj (<["link" := JNull]> ∅)) = cfd (JObj ∅).
Proof.
  apply cfd_ignores_other_keys; discriminate.
Defined.

Lemma cfd_missing_key_witness :
  exists key : string,
    cfd (JObj ∅) = inl (KeyError key) /\
    (∅ : gmap string json) !! key = None.
Proof.
  apply cfd_missing_key. left. reflexivity.
Defined.

Lemma dist_to_sep_edge_scale_invariant_witness :
  snd (dist_to_sep_edge (0.5, 0, 1)
         (mkStance (mkPointMass (0, 0, 1) 50) [] (Some flat_contact) None
            None None
            (Some (map (fun a => (2 * fst a, 2 * snd a)) (fst square_hrep),
                   map (Rmult 2) (snd square_hrep)))
            (Some (map norm (map (fun a => (2 * fst a, 2 * snd a))
                                 (fst square_hrep))))
            (Some square_vertices)))
  = snd (dist_to_sep_edge (0.5, 0, 1) standing_with_polygon).
Proof.
  apply (dist_to_sep_edge_scale_invariant standing_with_polygon _
           (fst square_hrep) (snd square_hrep) 2 (0.5, 0, 1)).
  - lra.
  - repeat constructor; intros H; injection H; lra.
  - reflexivity.
  - reflexivity.
  - reflexivity.
  - reflexivity.
  - reflexivity.
Defined.

Lemma zmp_support_area_at_com_height_witness :
  exists pb : projection_problem,
    zmp_projection_problem example_grasp_matrix example_wrench_inequalities
      42 (0, 0, 1) standing = (standing, inr pb) /\
    in_projection pb [0; 0] /\
    [0; 0] = [x (com standing); y (com standing)].
Proof.
  assert (Hin : forall pb,
             zmp_projection_problem example_grasp_matrix
               example_wrench_inequalities 42 (0, 0, 1) standing
               = (standing, inr pb) ->
             in_projection pb [0; 0]).
  { unfold zmp_projection_problem. run_method.
    intros pb H. injection H as <-.
    exists [0; 0; 42 * 9.81; 0; 0; 0]. unfold z, x, y. simpl.
    split; [reflexivity |].
    split; [constructor; [lra | constructor] |].
    split; repeat (f_equal; try lra). }
  eexists. split; [unfold zmp_projection_problem; run_method; reflexivity |].
  split.
  - apply Hin. unfold zmp_projection_problem; run_method; reflexivity.
  - eapply (zmp_support_area_at_com_height example_grasp_matrix
              example_wrench_inequalities standing (0, 0, 1) 42).
    + unfold zmp_projection_problem; run_method; reflexivity.
    + reflexivity.
    + apply Hin. unfold zmp_projection_problem; run_method; reflexivity.
Defined.

Lemma from_json_after_save_witness :
  exists fs' : files,
    save example_writable ∅ "stance.json" standing = (standing, inr fs') /\
    exists s' : Stance,
      from_json 0 fs' "stance.json" = (s', inr tt) /\
      p (com s') = p (com standing) /\
      contacts s' = contacts standing /\
      dof_tasks s' = [] /\
      sep_hrep s' = None /\
      forall q : vec3, dist_to_sep_edge q s' = (s', inl TypeError).
Proof.
  eexists. split; [unfold save, open_w; run_method; reflexivity |].
  refine (from_json_after_save 0 example_writable ∅ _ "stance.json"
            standing standing _).
  unfold save, open_w; run_method; reflexivity.
Defined.

(** [save] on a path that cannot be opened. *)
Example save_empty_path (writable : string -> bool) (fs : files) (s : Stance) :
  save writable fs "" s = (s, inl IOError).
Proof. reflexivity. Qed.

Example save_missing_directory :
  save example_writable ∅ "no_such_dir/stance.json" standing
  = (standing, inl IOError).
Proof. reflexivity. Qed.
